(** * mpyl: discovery of invalidated projects per stage

    A shallow embedding of [src/mpyl/stages/discovery.py]: the functions that
    decide, from the revision history of a branch and the previously recorded
    step outputs, which projects have to be executed for each stage.

    Python sets are finite sets ([gset]), the resulting
    [dict[Stage, set[ProjectExecution]]] is a finite map ([gmap]), strings are
    [string], the ordinal of a revision is an integer ([Z]).  The [logger]
    argument of the source only writes debug lines and is left out. *)

From Stdlib Require Import ZArith String Ascii List.
From stdpp Require Import base decidable option list sorting countable
  strings gmap fin_sets fin_maps.

Local Open Scope string_scope.
Local Open Scope Z_scope.

(** ** Python values *)

(** Truth value of an [Optional[str]]: [None] and the empty string are
    falsy. *)
Definition truthy (o : option string) : bool :=
  match o with
  | None => false
  | Some s => negb (String.eqb s "")
  end.

(** [o is not None]. *)
Definition is_not_None {A} (o : option A) : bool :=
  match o with
  | None => false
  | Some _ => true
  end.

(** [s.split(sep)] for a separator of one character. *)
Fixpoint split (sep : ascii) (s : string) : list string :=
  match s with
  | EmptyString => [EmptyString]
  | String c s' =>
      if Ascii.eqb c sep then EmptyString :: split sep s'
      else match split sep s' with
           | [] => [String c EmptyString]
           | t :: ts => String c t :: ts
           end
  end.

(** [path.startswith(p)]. *)
Definition startswith (path p : string) : bool := String.prefix p path.

(** What a Python call does: it returns a value or raises. *)
Inductive exception : Type :=
  | ConfigurationInvalid
  | OtherError (msg : string).

Inductive outcome (A : Type) : Type :=
  | Returns (a : A)
  | Raises (e : exception).
Arguments Returns {A} a.
Arguments Raises {A} e.

(** ** Data model *)

(** [mpyl.utilities.repo.Revision]. *)
Module Revision.
Record t : Type := mk {
  ord : Z;
  hash : string;
  files_touched : gset string
}.
End Revision.

(** [mpyl.steps.models.Artifact] and [Output]; of the artifact only the fields
    read anywhere in the sources are kept. *)
Module Artifact.
Record t : Type := mk {
  artifact_type : string;
  revision : string
}.
End Artifact.

Module Output.
Record t : Type := mk {
  success : bool;
  message : string;
  produced_artifact : option Artifact.t
}.
End Output.

(** [mpyl.project.Stage]: the functions here read its [name] only. *)
Module Stage.
Record t : Type := mk { name : string }.

#[global] Instance eq_dec : EqDecision t.
Proof. solve_decision. Defined.

#[global] Instance countable : Countable t.
Proof. by apply (inj_countable' name mk); intros []. Defined.
End Stage.

(** Modelled from the spec: [mpyl.project.Stages], the stages a project takes
    part in ("mapping Stage to optional stage-config"); the class is not among
    the sources.  The stage-config is held as a string, so that both truthy and
    falsy configurations exist. *)
Module Stages.
Abbreviation t := (gmap string string).
Definition for_stage (self : t) (stage : string) : option string :=
  self !! stage.
End Stages.

(** Modelled from the spec: [mpyl.project.Dependencies], the per-stage table of
    dependency paths ("mapping Stage to set of path"); the class is not among
    the sources.  A stage without an entry has the empty set. *)
Module Dependencies.
Abbreviation t := (gmap string (gset string)).
Definition set_for_stage (self : t) (stage : string) : gset string :=
  default ∅ (self !! stage).
End Dependencies.

(** [mpyl.project.Project]. *)
Module Project.
Record t : Type := mk {
  name : string;
  root_path : string;
  stages : Stages.t;
  dependencies : option Dependencies.t
}.

#[global] Instance eq_dec : EqDecision t.
Proof. solve_decision. Defined.

#[global] Instance countable : Countable t.
Proof.
  apply (inj_countable'
           (λ p, (name p, root_path p, stages p, dependencies p))
           (λ x, let '(n, r, s, d) := x in mk n r s d)).
  by intros [].
Defined.
End Project.

(** [mpyl.project_execution.ProjectExecution]. *)
Module ProjectExecution.
Record t : Type := mk {
  project : Project.t;
  changed_files : gset string
}.

#[global] Instance eq_dec : EqDecision t.
Proof. solve_decision. Defined.

#[global] Instance countable : Countable t.
Proof.
  apply (inj_countable'
           (λ e, (project e, changed_files e))
           (λ x, mk x.1 x.2)).
  by intros [].
Defined.
End ProjectExecution.

Abbreviation BuildSet := (gmap Stage.t (gset ProjectExecution.t)).

(** ** The functions of [discovery.py] *)

Section discovery.
(** The collaborators that are not among the sources: the name of the
    deploy stage ([deploy.STAGE_NAME]), the directory in which a project
    keeps its recorded outputs ([Project.target_path]) and the lookup of a
    recorded output ([Output.try_read]). *)
Variable STAGE_NAME : string.
Variable target_path : Project.t → string.
Variable try_read : string → string → option Output.t.

(** [if deps]: a [Dependencies] object is truthy, only [None] is not;
    [next(filter(path.startswith, deps_for_stage), None)] is the first
    dependency path, in the iteration order of the set, that the path starts
    with. *)
Definition is_invalidated (project : Project.t) (stage path : string) : bool :=
  let deps := Project.dependencies project in
  let deps_for_stage :=
    match deps with
    | Some d => Dependencies.set_for_stage d stage
    | None => ∅
    end in
  let touched_dependency :=
    match deps with
    | Some _ => List.find (startswith path) (elements deps_for_stage)
    | None => None
    end in
  let startswith := startswith path (Project.root_path project) in
  startswith || is_not_None touched_dependency.

Definition output_invalidated (output : option Output.t)
    (revision_hash : string) : bool :=
  match output with
  | None => true
  | Some output =>
      if negb (Output.success output) then true
      else match Output.produced_artifact output with
           | None => true
           | Some artifact =>
               if negb (String.eqb (Artifact.revision artifact) revision_hash)
               then true
               else false
           end
  end.

(** [sorted(change_history, key=lambda c: c.ord)]: the sort is stable, so
    revisions of equal ordinal keep their order. *)
Fixpoint insert_by_ord (c : Revision.t) (l : list Revision.t)
    : list Revision.t :=
  match l with
  | [] => [c]
  | c' :: l' =>
      if Revision.ord c <=? Revision.ord c' then c :: l
      else c' :: insert_by_ord c l'
  end.

Definition sorted (change_history : list Revision.t) : list Revision.t :=
  foldr insert_by_ord [] change_history.

(** The [for] loop of [_to_relevant_changes], with [relevant] as the
    accumulator; the [else] branch returns from inside the loop. *)
Fixpoint relevant_loop (stage : string) (output : option Output.t)
    (walk : list Revision.t) (relevant : gset string) : gset string :=
  match walk with
  | [] => relevant
  | history :: walk' =>
      if String.eqb stage STAGE_NAME
         || output_invalidated output (Revision.hash history)
      then relevant_loop stage output walk'
             (relevant ∪ Revision.files_touched history)
      else relevant
  end.

Definition _to_relevant_changes (project : Project.t) (stage : string)
    (change_history : list Revision.t) : gset string :=
  let output := try_read (target_path project) stage in
  relevant_loop stage output (rev (sorted change_history)) ∅.

Definition _to_project_execution (project : Project.t) (stage : string)
    (change_history : list Revision.t) : option ProjectExecution.t :=
  match Stages.for_stage (Project.stages project) stage with
  | None => None
  | Some _ =>
      let relevant_changes :=
        _to_relevant_changes project stage change_history in
      let files_changed_for_this_project :=
        filter (λ c, is_invalidated project stage c = true)
               relevant_changes in
      if decide (files_changed_for_this_project = ∅) then None
      else Some (ProjectExecution.mk project files_changed_for_this_project)
  end.

Definition build_project_executions (all_projects : gset Project.t)
    (stage : string) (change_history : list Revision.t)
    : gset ProjectExecution.t :=
  let maybe_execution_projects : gset (option ProjectExecution.t) :=
    set_map (λ project, _to_project_execution project stage change_history)
            all_projects in
  set_omap id maybe_execution_projects.

(** The [filter] keeps the projects whose stage entry is truthy. *)
Definition for_stage (projects : gset Project.t) (stage : Stage.t)
    : gset Project.t :=
  filter (λ p, truthy (Stages.for_stage (Project.stages p)
                         (Stage.name stage)) = true)
         projects.

(** [projects_list = selected_projects.split(",")], bound only when
    [selected_projects] is truthy. *)
Definition projects_list (selected_projects : option string) : list string :=
  match selected_projects with
  | Some s => split "," s
  | None => []
  end.

(** [selected_stage and selected_stage != stage.name]. *)
Definition skipped (selected_stage : option string) (stage : Stage.t) : bool :=
  match selected_stage with
  | Some s => truthy selected_stage && negb (String.eqb s (Stage.name stage))
  | None => false
  end.

(** One turn of the loop over [stages] in [find_build_set].  The state is
    the pair of the two variables the loop assigns: [all_projects], which the
    explicit filter narrows in place, and [build_set]. *)
Definition find_build_set_step (changes_in_branch : list Revision.t)
    (build_all : bool) (selected_stage selected_projects : option string)
    (st : gset Project.t * BuildSet) (stage : Stage.t)
    : gset Project.t * BuildSet :=
  let '(all_projects, build_set) := st in
  if skipped selected_stage stage then st
  else if build_all || truthy selected_projects then
    let all_projects :=
      if truthy selected_projects then
        filter (λ p, Project.name p ∈ projects_list selected_projects)
               all_projects
      else all_projects in
    let projects := for_stage all_projects stage in
    let project_executions : gset ProjectExecution.t :=
      set_map (λ p, ProjectExecution.mk p ∅) projects in
    (all_projects, <[stage := project_executions]> build_set)
  else
    let project_executions :=
      build_project_executions all_projects (Stage.name stage)
                               changes_in_branch in
    (all_projects, <[stage := project_executions]> build_set).

Definition find_build_set (all_projects : gset Project.t)
    (changes_in_branch : list Revision.t) (stages : list Stage.t)
    (build_all : bool) (selected_stage selected_projects : option string)
    : BuildSet :=
  (foldl (find_build_set_step changes_in_branch build_all
            selected_stage selected_projects)
         (all_projects, ∅) stages).2.

End discovery.

(** ** Sample data

    The projects, revisions and recorded outputs on which the general
    statements below are instantiated. *)
Module Sample.
Definition BUILD : Stage.t := Stage.mk "build".

(** Project A: root [svcA/], takes part in the build stage, declares no
    dependencies. *)
Definition A : Project.t :=
  Project.mk "A" "svcA/" {["build" := "Docker Build"]} None.

(** Project B: root [svcB/], takes part in the build stage and depends on
    [shared/] for it. *)
Definition B : Project.t :=
  Project.mk "B" "svcB/" {["build" := "Docker Build"]}
             (Some {["build" := {["shared/"]}]}).

(** A project whose root has no trailing separator. *)
Definition svcA : Project.t :=
  Project.mk "svcA" "svcA" {["build" := "Docker Build"]} None.

Definition r1 : Revision.t := Revision.mk 1 "hash1" {["shared/util.go"]}.
Definition r2 : Revision.t := Revision.mk 2 "hash2" {["svcA/main.go"]}.
Definition r3 : Revision.t := Revision.mk 3 "hash3" {["svcA/README.md"]}.

(** A project whose build entry is present and is the empty string. *)
Definition empty_step : Project.t :=
  Project.mk "E" "svcE/" {["build" := ""]} None.

(** A project under [svcA/] that takes part in the deploy stage. *)
Definition deployed : Project.t :=
  Project.mk "D" "svcA/" {["deploy" := "Kubernetes Deploy"]} None.

(** A project rooted at the root of the repository. *)
Definition whole_repo : Project.t :=
  Project.mk "whole" "" {["build" := "Docker Build"]} None.

(** A successful output whose artifact was produced at [rev]. *)
Definition built_at (rev : string) : Output.t :=
  Output.mk true "ok" (Some (Artifact.mk "DOCKER_IMAGE" rev)).

Definition target_path (p : Project.t) : string :=
  Project.root_path p +:+ "deployment/.mpyl".

(** No output was ever recorded. *)
Definition no_outputs (path stage : string) : option Output.t := None.

(** Every project was last built at [r2]. *)
Definition outputs_at_r2 (path stage : string) : option Output.t :=
  Some (built_at (Revision.hash r2)).

(** Only the build output of project A is recorded. *)
Definition outputs_of_A (path stage : string) : option Output.t :=
  if String.eqb path (target_path A) && String.eqb stage "build"
  then Some (built_at (Revision.hash r2))
  else None.
End Sample.

(** ** Upgrades of project files ([projects/versioning.py]) *)

Module versioning.
Section upgrade.
(** What the module takes from its libraries: the project as an ordered
    dictionary ([ruamel]'s [ordereddict]) with the lookup of a string entry
    ([project.get(key)]) and the assignment [project[key] = value], and the
    truth value of [DeepDiff(a, b, ignore_order=True)].  Values are immutable
    here, so [copy.deepcopy] is the identity. *)
Variable dict : Type.
Variable get : dict → string → option string.
Variable setitem : dict → string → string → dict.
Variable DeepDiff : dict → dict → bool.

Definition VERSION_FIELD : string := "mpylVersion".

(** An [Upgrader]: its [target_version] and its [upgrade] method. *)
Record Upgrader : Type := mkUpgrader {
  target_version : string;
  upgrade : dict → dict
}.

(** [Upgrader8] and [Upgrader11] return the dictionary as it is. *)
Definition Upgrader8 : Upgrader := mkUpgrader "1.0.8" (λ previous_dict, previous_dict).
Definition Upgrader11 : Upgrader := mkUpgrader "1.0.11" (λ previous_dict, previous_dict).

(** [UPGRADERS]; the [upgrade] methods of [Upgrader9] and [Upgrader10] work
    on the dictionary through [ordereddict.insert] and are taken as given. *)
Definition UPGRADERS (upgrade9 upgrade10 : dict → dict) : list Upgrader :=
  [Upgrader8; mkUpgrader "1.0.9" upgrade9; mkUpgrader "1.0.10" upgrade10;
   Upgrader11].

(** The index of the first upgrader whose target is the current version. *)
Definition get_entry_upgrader_index (current_version : string)
    (upgraders : list Upgrader) : option nat :=
  fst <$> list_find (λ v, target_version v = current_version) upgraders.

Definition __get_version (project : dict) : string :=
  default "1.0.8" (get project VERSION_FIELD).

(** One turn of the loop of [upgrade_to_latest]. *)
Definition upgrade_step (to_upgrade upgraded : dict) (upgrader : Upgrader)
    : dict :=
  let upgraded := upgrade upgrader upgraded in
  let diff := DeepDiff upgraded to_upgrade in
  if diff then setitem upgraded VERSION_FIELD (target_version upgrader)
  else upgraded.

Definition upgrade_to_latest (to_upgrade : dict) (upgraders : list Upgrader)
    : dict :=
  let versie := __get_version to_upgrade in
  match get_entry_upgrader_index versie upgraders with
  | None => to_upgrade
  | Some upgrade_index =>
      foldl (upgrade_step to_upgrade) to_upgrade (drop upgrade_index upgraders)
  end.
End upgrade.
End versioning.

(** ** Clusters ([steps/deploy/k8s/cluster.py]) *)

(** [config[key]]: a [KeyError] when the key is missing. *)
Definition getitem (config : gmap string string) (key : string)
    : outcome string :=
  match config !! key with
  | Some v => Returns v
  | None => Raises (OtherError ("KeyError: " +:+ key))
  end.

Definition outcome_bind {A B} (x : outcome A) (f : A → outcome B) : outcome B :=
  match x with
  | Returns a => f a
  | Raises e => Raises e
  end.

(** A list comprehension whose element expression may raise. *)
Fixpoint outcome_map {A B} (f : A → outcome B) (l : list A)
    : outcome (list B) :=
  match l with
  | [] => Returns []
  | x :: l' =>
      outcome_bind (f x) (λ y,
      outcome_bind (outcome_map f l') (λ ys, Returns (y :: ys)))
  end.

Module ClusterConfig.
Record t : Type := mk {
  name : string;
  project_id : option string;
  cluster_id : option string;
  cluster_env : string;
  context : string
}.

(** The keyword arguments are evaluated in the order in which they are
    written. *)
Definition from_config (config : gmap string string) : outcome t :=
  outcome_bind (getitem config "name") (λ name,
  let project_id := config !! "clusterId" in
  let cluster_id := config !! "clusterId" in
  outcome_bind (getitem config "clusterEnv") (λ cluster_env,
  outcome_bind (getitem config "context") (λ context,
  Returns (mk name project_id cluster_id cluster_env context)))).
End ClusterConfig.

(** The values of the dictionary that [get_namespace_metadata] returns. *)
Inductive metadata_value : Type :=
  | Str (s : string)
  | Dict (d : gmap string string).

(** Inside the [if] both identifiers are non-empty strings. *)
Definition get_namespace_metadata (namespace : string)
    (cluster_config : ClusterConfig.t) : gmap string metadata_value :=
  let metadata : gmap string metadata_value := {["name" := Str namespace]} in
  match ClusterConfig.project_id cluster_config,
        ClusterConfig.cluster_id cluster_config with
  | Some project_id, Some cluster_id =>
      if truthy (Some project_id) && truthy (Some cluster_id) then
        let metadata :=
          <["annotations" :=
              Dict {["field.cattle.io/projectId" :=
                       cluster_id +:+ ":" +:+ project_id;
                     "lifecycle.cattle.io/create.namespace-auth" := "true"]}]>
            metadata in
        <["labels" :=
            Dict {["field.cattle.io/projectId" := project_id;
                   "kubernetes.io/metadata.name" := namespace]}]>
          metadata
      else metadata
  | _, _ => metadata
  end.

(** The lookups of [get_cluster_config_for_project].  Its arguments are the
    values that the function reads from its collaborators before:
    [cluster_override] (the cluster the project names for the target, if any),
    the list [kubernetes_config["clusters"]] and [default_cluster_name].
    [next] without a default raises [StopIteration] when nothing is found; the
    test [if not default_cluster] that follows never holds, an instance of
    the dataclass being truthy. *)
Definition get_cluster_config_for_project (cluster_override : option string)
    (cluster_configs : list (gmap string string))
    (default_cluster_name : string) : outcome ClusterConfig.t :=
  outcome_bind (outcome_map ClusterConfig.from_config cluster_configs)
    (λ clusters,
  match List.find (λ cluster, String.eqb (ClusterConfig.name cluster)
                                default_cluster_name) clusters with
  | None => Raises (OtherError "StopIteration")
  | Some default_cluster =>
      let cluster_for_env :=
        default default_cluster
          (List.find (λ cluster, bool_decide (Some (ClusterConfig.name cluster)
                                              = cluster_override))
                     clusters) in
      Returns cluster_for_env
  end).

(** Sample project files and cluster configurations. *)
Module SampleConfig.
(** A project file as the list of its string entries. *)
Definition get (project : list (string * string)) (key : string)
    : option string :=
  snd <$> List.find (λ kv, String.eqb (fst kv) key) project.

(** [project[key] = value]: an entry that exists keeps its place, a new one
    goes to the end. *)
Definition setitem (project : list (string * string)) (key value : string)
    : list (string * string) :=
  match get project key with
  | Some _ =>
      List.map (λ kv, if String.eqb (fst kv) key then (key, value) else kv)
               project
  | None => (project ++ [(key, value)])%list
  end.

(** Every entry of [a] is an entry of [b]. *)
Definition entries_within (a b : list (string * string)) : bool :=
  forallb (λ kv, bool_decide (get b (fst kv) = Some (snd kv))) a.

(** The truth value of [DeepDiff(a, b, ignore_order=True)]: the two
    dictionaries differ in some entry, whatever the order of their keys. *)
Definition DeepDiff (a b : list (string * string)) : bool :=
  negb (entries_within a b && entries_within b a).

Definition unversioned : list (string * string) := [("name", "svcA")].
Definition unknown_version : list (string * string) :=
  [("name", "svcA"); ("mpylVersion", "0.9.0")].
Definition latest_version : list (string * string) :=
  [("name", "svcA"); ("mpylVersion", "1.0.11")].

(** An upgrade that renames the project. *)
Definition rename (project : list (string * string))
    : list (string * string) :=
  setitem project "name" "renamed".

Definition acceptance : gmap string string :=
  {["name" := "acc"; "clusterId" := "c-1"; "clusterEnv" := "acceptance";
    "context" := "acc-ctx"]}.

Definition production : gmap string string :=
  {["name" := "prod"; "clusterEnv" := "production"; "context" := "prod-ctx"]}.

Definition acceptance_cluster : ClusterConfig.t :=
  ClusterConfig.mk "acc" (Some "c-1") (Some "c-1") "acceptance" "acc-ctx".

Definition production_cluster : ClusterConfig.t :=
  ClusterConfig.mk "prod" None None "production" "prod-ctx".
End SampleConfig.

(** ** Vocabulary of the statements *)

(** [p] is a prefix of [path]. *)
Definition prefixed_by (path p : string) : Prop := ∃ t, path = p +:+ t.

(** The dependency paths a project declares for a stage; a project without a
    dependency table declares none. *)
Definition declared_dependencies (project : Project.t) (stage : string)
    : gset string :=
  match Project.dependencies project with
  | Some d => Dependencies.set_for_stage d stage
  | None => ∅
  end.

(** Ascending and descending order of ordinals. *)
Definition ord_le (a b : Revision.t) : Prop := Revision.ord a ≤ Revision.ord b.
Definition ord_ge (a b : Revision.t) : Prop := Revision.ord b ≤ Revision.ord a.

(** The files touched by the revisions of a list. *)
Definition files_of (l : list Revision.t) : gset string :=
  ⋃ (Revision.files_touched <$> l).

(** The projects left by the explicit filter, when there is one. *)
Definition narrowed (selected_projects : option string)
    (all_projects : gset Project.t) : gset Project.t :=
  if truthy selected_projects then
    filter (λ p, Project.name p ∈ projects_list selected_projects) all_projects
  else all_projects.

(** The execution of a project that is scheduled unconditionally. *)
Definition forced (p : Project.t) : ProjectExecution.t :=
  ProjectExecution.mk p ∅.

(** The stage entry of the project is truthy, the test that [for_stage]
    makes: the entry is present and is not the empty string.  This is
    narrower than [declares] below, which a present but empty entry
    satisfies. *)
Definition participates (p : Project.t) (stage : Stage.t) : Prop :=
  truthy (Stages.for_stage (Project.stages p) (Stage.name stage)) = true.

(** The project has an entry for the stage. *)
Definition declares (p : Project.t) (stage : Stage.t) : Prop :=
  is_Some (Stages.for_stage (Project.stages p) (Stage.name stage)).

Section vocabulary.
Variable STAGE_NAME : string.
Variable target_path : Project.t → string.
Variable try_read : string → string → option Output.t.

(** The changed files [_to_project_execution] keeps for a project. *)
Definition files_changed_for (project : Project.t) (stage : string)
    (change_history : list Revision.t) : gset string :=
  filter (λ c, is_invalidated project stage c = true)
    (_to_relevant_changes STAGE_NAME target_path try_read project stage
       change_history).

Variable all_projects : gset Project.t.
Variable changes_in_branch : list Revision.t.
Variable build_all : bool.
Variable selected_projects : option string.

(** What [find_build_set] records for a stage it does not skip. *)
Definition stage_executions (stage : Stage.t) : gset ProjectExecution.t :=
  if build_all || truthy selected_projects then
    set_map forced (for_stage (narrowed selected_projects all_projects) stage)
  else
    build_project_executions STAGE_NAME target_path try_read all_projects
      (Stage.name stage) changes_in_branch.

(** The value of the loop variable [all_projects]: the set passed in, or
    that set narrowed by the explicit filter. *)
Definition loop_projects (cur : gset Project.t) : Prop :=
  cur = all_projects ∨ cur = narrowed selected_projects all_projects.

End vocabulary.

(** ** Strings *)

Lemma startswith_prefixed_by path p :
  startswith path p = true ↔ prefixed_by path p.
Proof.
  unfold startswith, prefixed_by. revert path.
  induction p as [|a p IH]; intros path.
  - split; [intros _; by exists path | by destruct path].
  - destruct path as [|b path]; simpl.
    + split; [done | by intros [t Ht]].
    + destruct (ascii_dec a b) as [->|Hne].
      * rewrite IH. split; intros [t Ht]; exists t.
        -- change (String b path = String b (p +:+ t)). congruence.
        -- change (String b path = String b (p +:+ t)) in Ht. congruence.
      * split; [done | intros [t Ht]].
        change (String b path = String a (p +:+ t)) in Ht. congruence.
Qed.

Lemma startswith_append p t : startswith (p +:+ t) p = true.
Proof. apply startswith_prefixed_by. by exists t. Qed.

Lemma find_is_not_None {A} (f : A → bool) (l : list A) :
  is_not_None (List.find f l) = true ↔ ∃ x, x ∈ l ∧ f x = true.
Proof.
  induction l as [|y l IH]; simpl.
  - split; [done | intros (x & Hx & _); by apply elem_of_nil in Hx].
  - destruct (f y) eqn:Hy; simpl.
    + split; [intros _; exists y; split; [left | done] | done].
    + rewrite IH. split; intros (x & Hx & Hfx).
      * exists x. split; [by right | done].
      * apply elem_of_cons in Hx as [->|Hx]; [congruence | by exists x].
Qed.

(** ** The invalidation predicate *)

Lemma is_invalidated_spec (project : Project.t) (stage path : string) :
  is_invalidated project stage path = true ↔
    prefixed_by path (Project.root_path project)
    ∨ ∃ d, d ∈ declared_dependencies project stage ∧ prefixed_by path d.
Proof.
  unfold is_invalidated, declared_dependencies.
  rewrite orb_true_iff, startswith_prefixed_by.
  destruct (Project.dependencies project) as [deps|].
  - rewrite find_is_not_None.
    setoid_rewrite elem_of_elements.
    by setoid_rewrite startswith_prefixed_by.
  - simpl. split; [intros [H|H]; [by left | done] |].
    intros [H|(d & Hd & _)]; [by left |].
    by apply not_elem_of_empty in Hd.
Qed.

(** C5: a changed path invalidates a project for a stage exactly when the
    path starts with the project's root path or with one of the dependency
    paths the project declares for that stage; without a dependency table the
    declared set is empty, and only the root path counts. *)
Theorem is_invalidated_iff (project : Project.t) (stage path : string) :
  (is_invalidated project stage path = true ↔
     prefixed_by path (Project.root_path project)
     ∨ ∃ d, d ∈ declared_dependencies project stage ∧ prefixed_by path d)
  ∧ (Project.dependencies project = None →
       declared_dependencies project stage = ∅
       ∧ (is_invalidated project stage path = true ↔
            prefixed_by path (Project.root_path project))).
Proof.
  split; [apply is_invalidated_spec |].
  intros Hnone. rewrite is_invalidated_spec.
  unfold declared_dependencies. rewrite Hnone.
  split; [done |].
  split; [intros [H|(d & Hd & _)] | by left]; [done |].
  by apply not_elem_of_empty in Hd.
Qed.

Lemma is_invalidated_iff_witness :
  declared_dependencies Sample.A "build" = ∅
  ∧ (is_invalidated Sample.A "build" "svcA/main.go" = true ↔
       prefixed_by "svcA/main.go" (Project.root_path Sample.A)).
Proof. exact (proj2 (is_invalidated_iff Sample.A "build" "svcA/main.go") eq_refl). Defined.

(** C10: matching is on the text of the path, with no check for a path
    separator: every path that extends the root path, by whatever text,
    invalidates the project, for every stage; so a project rooted at [svcA] is
    invalidated by [svcAextra/file.go]. *)
Theorem is_invalidated_raw_prefix (project : Project.t) (stage rest : string) :
  is_invalidated project stage (Project.root_path project +:+ rest) = true
  ∧ (Project.root_path project = "svcA" →
       is_invalidated project stage "svcAextra/file.go" = true).
Proof.
  assert (H : ∀ t, is_invalidated project stage
                     (Project.root_path project +:+ t) = true).
  { intros t. unfold is_invalidated. by rewrite startswith_append. }
  split; [apply H |].
  intros Hroot. specialize (H "extra/file.go"). by rewrite Hroot in H.
Qed.

Lemma is_invalidated_raw_prefix_witness :
  is_invalidated Sample.svcA "build" "svcAextra/file.go" = true.
Proof.
  exact (proj2 (is_invalidated_raw_prefix Sample.svcA "build" "") eq_refl).
Defined.

(** ** Staleness of a recorded output *)

(** C3: a recorded output is invalidated against a revision hash exactly when
    no output is recorded, or it records a failure, or it has no produced
    artifact, or the artifact was produced at another revision; otherwise the
    answer is false. *)
Theorem output_invalidated_iff (output : option Output.t) (revision_hash : string) :
  (output_invalidated output revision_hash = true ↔
     output = None
     ∨ (∃ o, output = Some o ∧ Output.success o = false)
     ∨ (∃ o, output = Some o ∧ Output.produced_artifact o = None)
     ∨ (∃ o a, output = Some o ∧ Output.produced_artifact o = Some a
               ∧ Artifact.revision a ≠ revision_hash))
  ∧ (output_invalidated output revision_hash = false ↔
     ∃ o a, output = Some o ∧ Output.success o = true
            ∧ Output.produced_artifact o = Some a
            ∧ Artifact.revision a = revision_hash).
Proof.
  unfold output_invalidated.
  destruct output as [[succ msg [[ty rev]|]]|]; simpl.
  - destruct succ; simpl.
    + destruct (String.eqb_spec rev revision_hash) as [->|Hne]; simpl.
      * split; split; try done.
        -- intros [?|[(o & [= <-] & ?)|[(o & [= <-] & ?)|(o & a & [= <-] & [= <-] & ?)]]];
             done.
        -- intros _. by eexists _, _.
      * split; split; try done.
        -- intros _. do 3 right. by eexists _, _.
        -- intros (o & a & [= <-] & _ & [= <-] & ?). done.
    + split; split; try done.
      * intros _. right; left. by eexists.
      * intros (o & a & [= <-] & ? & _). done.
  - destruct succ; simpl.
    + split; split; try done.
      * intros _. right; right; left. by eexists.
      * intros (o & a & [= <-] & _ & ? & _). done.
    + split; split; try done.
      * intros _. right; left. by eexists.
      * intros (o & a & [= <-] & ? & _). done.
  - split; split; try done.
    + intros _. by left.
    + intros (o & a & ? & _). done.
Qed.

(** ** The walk over the revision history *)

Lemma elem_of_files_of (l : list Revision.t) (x : string) :
  x ∈ files_of l ↔ ∃ r, r ∈ l ∧ x ∈ Revision.files_touched r.
Proof.
  unfold files_of. rewrite elem_of_union_list. split.
  - intros (X & HX & Hx). apply list_elem_of_fmap in HX as (r & -> & Hr).
    by exists r.
  - intros (r & Hr & Hx). exists (Revision.files_touched r).
    split; [| done]. apply list_elem_of_fmap. by exists r.
Qed.

Lemma files_of_perm (l k : list Revision.t) : l ≡ₚ k → files_of l = files_of k.
Proof.
  intros Hperm. apply set_eq. intros x. rewrite !elem_of_files_of.
  by setoid_rewrite Hperm.
Qed.

Lemma insert_by_ord_perm (c : Revision.t) (l : list Revision.t) :
  insert_by_ord c l ≡ₚ c :: l.
Proof.
  induction l as [|c' l IH]; simpl; [done |].
  destruct (Revision.ord c <=? Revision.ord c'); [done |].
  rewrite IH. apply Permutation_swap.
Qed.

Lemma sorted_perm (l : list Revision.t) : sorted l ≡ₚ l.
Proof.
  induction l as [|c l IH]; simpl; [done |].
  by rewrite insert_by_ord_perm, IH.
Qed.

Lemma insert_by_ord_sorted (c : Revision.t) (l : list Revision.t) :
  StronglySorted ord_le l → StronglySorted ord_le (insert_by_ord c l).
Proof.
  induction 1 as [|c' l Hl IH Hc']; simpl.
  - repeat constructor.
  - destruct (Z.leb_spec (Revision.ord c) (Revision.ord c')) as [Hle|Hlt].
    + constructor; [by constructor |].
      constructor; [done |].
      eapply Forall_impl; [exact Hc' |]. unfold ord_le. intros; lia.
    + constructor; [done |].
      rewrite insert_by_ord_perm. constructor; [unfold ord_le; lia | done].
Qed.

Lemma sorted_sorted (l : list Revision.t) : StronglySorted ord_le (sorted l).
Proof.
  induction l as [|c l IH]; simpl; [constructor |].
  by apply insert_by_ord_sorted.
Qed.

Lemma rev_sorted_descending (l : list Revision.t) :
  StronglySorted ord_le l → StronglySorted ord_ge (rev l).
Proof.
  induction 1 as [|c l Hl IH Hc]; simpl; [constructor |].
  apply StronglySorted_app. split_and!.
  - intros x1 x2 Hx1 Hx2. apply list_elem_of_singleton in Hx2 as ->.
    apply list_elem_of_In, in_rev, list_elem_of_In in Hx1.
    rewrite Forall_forall in Hc. by apply Hc.
  - done.
  - repeat constructor.
Qed.

(** The order in which [_to_relevant_changes] visits the history: all of its
    revisions, by descending ordinal. *)
Lemma walk_order (history : list Revision.t) :
  rev (sorted history) ≡ₚ history
  ∧ StronglySorted ord_ge (rev (sorted history)).
Proof.
  split.
  - by rewrite <- Permutation_rev, sorted_perm.
  - apply rev_sorted_descending, sorted_sorted.
Qed.

Section walk.
Variable STAGE_NAME : string.

(** While the loop does not stop, it adds the files of each revision. *)
Lemma relevant_loop_continue stage output newer rest relevant :
  (∀ r, r ∈ newer →
     String.eqb stage STAGE_NAME
     || output_invalidated output (Revision.hash r) = true) →
  relevant_loop STAGE_NAME stage output (newer ++ rest) relevant
  = relevant_loop STAGE_NAME stage output rest (relevant ∪ files_of newer).
Proof.
  revert relevant. induction newer as [|r newer IH]; intros relevant Hall.
  - unfold files_of. simpl. by rewrite (right_id_L ∅ (∪)).
  - simpl. rewrite (Hall r) by left.
    rewrite IH by (intros r' Hr'; apply Hall; by right).
    unfold files_of. rewrite fmap_cons, union_list_cons.
    by rewrite (assoc_L (∪)).
Qed.

Lemma relevant_loop_all stage output walk relevant :
  (∀ r, r ∈ walk →
     String.eqb stage STAGE_NAME
     || output_invalidated output (Revision.hash r) = true) →
  relevant_loop STAGE_NAME stage output walk relevant
  = relevant ∪ files_of walk.
Proof.
  intros Hall. rewrite <- (app_nil_r walk) at 1.
  by rewrite relevant_loop_continue.
Qed.

Lemma relevant_loop_stop stage output newer r older relevant :
  stage ≠ STAGE_NAME →
  (∀ r', r' ∈ newer → output_invalidated output (Revision.hash r') = true) →
  output_invalidated output (Revision.hash r) = false →
  relevant_loop STAGE_NAME stage output (newer ++ r :: older) relevant
  = relevant ∪ files_of newer.
Proof.
  intros Hstage Hnewer Hr.
  rewrite relevant_loop_continue.
  - simpl. rewrite Hr.
    by destruct (String.eqb_spec stage STAGE_NAME).
  - intros r' Hr'. rewrite (Hnewer r' Hr'). apply orb_true_r.
Qed.
End walk.

(** In a history without repeated ordinals, the revisions visited before [r]
    are those of a greater ordinal. *)
Lemma walk_newer (history newer older : list Revision.t) (r : Revision.t) :
  NoDup (Revision.ord <$> history) →
  rev (sorted history) = (newer ++ r :: older)%list →
  ∀ r', r' ∈ newer ↔ r' ∈ history ∧ Revision.ord r < Revision.ord r'.
Proof.
  intros Hnodup Hwalk r'.
  destruct (walk_order history) as [Hperm Hsorted].
  rewrite Hwalk in Hperm, Hsorted.
  rewrite <- Hperm in Hnodup. rewrite fmap_app, fmap_cons in Hnodup.
  apply NoDup_app in Hnodup as (_ & Hdisj & Hnodup).
  apply NoDup_cons in Hnodup as [Hr _].
  apply StronglySorted_app in Hsorted as (Hcross & _ & Hsorted).
  apply StronglySorted_cons in Hsorted as [Holder _].
  rewrite Forall_forall in Holder.
  rewrite <- Hperm. split.
  - intros Hin. split; [apply elem_of_app; by left |].
    assert (Revision.ord r ≤ Revision.ord r') as Hle
      by (apply (Hcross r' r); [done | left]).
    assert (Revision.ord r' ≠ Revision.ord r) as Hne.
    { intros Heq. apply (Hdisj (Revision.ord r')).
      - apply list_elem_of_fmap. by exists r'.
      - rewrite Heq. left. }
    lia.
  - intros [Hin Hlt]. apply elem_of_app in Hin as [Hin|Hin]; [done |].
    apply elem_of_cons in Hin as [->|Hin]; [lia |].
    specialize (Holder r' Hin). unfold ord_ge in Holder. lia.
Qed.

Lemma output_invalidated_valid (o : Output.t) (a : Artifact.t) (h : string) :
  Output.success o = true →
  Output.produced_artifact o = Some a →
  output_invalidated (Some o) h = negb (String.eqb (Artifact.revision a) h).
Proof.
  intros Hsucc Hart. unfold output_invalidated. rewrite Hsucc, Hart. simpl.
  by destruct (String.eqb (Artifact.revision a) h).
Qed.

Lemma files_of_singleton (r : Revision.t) : files_of [r] = Revision.files_touched r.
Proof. unfold files_of. simpl. by rewrite (right_id_L ∅ (∪)). Qed.

(** ** The relevant changes of a project for a stage *)

(** C1: for a stage other than deploy, the history is visited by descending
    ordinal, and the walk stops at the first revision [r] against whose hash
    the recorded output is not stale; the result is the union of the touched
    files of the revisions visited before [r], which, ordinals being distinct,
    are the revisions of the history strictly newer than [r].  In particular,
    for the history of [r3] (newest), [r2], [r1] (oldest) and a successful
    output whose artifact was produced at [r2], the hash of [r3] being another
    one, the result is the touched files of [r3] alone. *)
Theorem relevant_changes_stop (STAGE_NAME : string)
    (target_path : Project.t → string)
    (try_read : string → string → option Output.t)
    (project : Project.t) (stage : string) (history : list Revision.t) :
  stage ≠ STAGE_NAME →
  let output := try_read (target_path project) stage in
  let relevant :=
    _to_relevant_changes STAGE_NAME target_path try_read project stage history in
  (rev (sorted history) ≡ₚ history
   ∧ StronglySorted ord_ge (rev (sorted history)))
  ∧ (∀ newer r older,
       rev (sorted history) = (newer ++ r :: older)%list →
       (∀ r', r' ∈ newer →
          output_invalidated output (Revision.hash r') = true) →
       output_invalidated output (Revision.hash r) = false →
       relevant = files_of newer
       ∧ (NoDup (Revision.ord <$> history) →
          ∀ r', r' ∈ newer ↔
                r' ∈ history ∧ Revision.ord r < Revision.ord r'))
  ∧ (∀ r1 r2 r3 o a,
       history ≡ₚ [r3; r2; r1] →
       Revision.ord r1 < Revision.ord r2 →
       Revision.ord r2 < Revision.ord r3 →
       output = Some o →
       Output.success o = true →
       Output.produced_artifact o = Some a →
       Artifact.revision a = Revision.hash r2 →
       Revision.hash r3 ≠ Revision.hash r2 →
       relevant = Revision.files_touched r3).
Proof.
  intros Hstage output relevant.
  assert (Hstop : ∀ newer r older,
       rev (sorted history) = (newer ++ r :: older)%list →
       (∀ r', r' ∈ newer →
          output_invalidated output (Revision.hash r') = true) →
       output_invalidated output (Revision.hash r) = false →
       relevant = files_of newer).
  { intros newer r older Hwalk Hnewer Hr.
    unfold relevant, _to_relevant_changes. rewrite Hwalk.
    rewrite (relevant_loop_stop STAGE_NAME stage _ newer r older) by done.
    by rewrite (left_id_L ∅ (∪)). }
  split_and!.
  - apply walk_order.
  - apply walk_order.
  - intros newer r older Hwalk Hnewer Hr. split; [by eapply Hstop |].
    intros Hnodup. by eapply walk_newer.
  - intros r1 r2 r3 o a Hperm H12 H23 Hout Hsucc Hart Hrev Hhash.
    destruct (walk_order history) as [Hwperm Hwsorted].
    assert (Hwalk : rev (sorted history) = [r3; r2; r1]).
    { apply (StronglySorted_unique_strong ord_ge).
      - intros x1 x2 Hx1 Hx2. rewrite Hwperm, Hperm in Hx1.
        unfold ord_ge. revert Hx1 Hx2. rewrite !elem_of_cons, !elem_of_nil.
        intros [->|[->|[->|[]]]] [->|[->|[->|[]]]]; try done; lia.
      - done.
      - unfold ord_ge. repeat constructor; lia.
      - by rewrite Hwperm. }
    rewrite (Hstop [r3] r2 [r1]).
    + apply files_of_singleton.
    + done.
    + intros r' Hr'. apply list_elem_of_singleton in Hr' as ->.
      rewrite Hout, (output_invalidated_valid o a) by done.
      rewrite Hrev. apply negb_true_iff, String.eqb_neq. congruence.
    + rewrite Hout, (output_invalidated_valid o a) by done.
      rewrite Hrev. apply negb_false_iff, String.eqb_refl.
Qed.

Lemma relevant_changes_stop_witness :
  _to_relevant_changes "deploy" Sample.target_path Sample.outputs_at_r2
    Sample.A "build" [Sample.r3; Sample.r2; Sample.r1]
  = Revision.files_touched Sample.r3.
Proof.
  refine (proj2 (proj2 (relevant_changes_stop "deploy" Sample.target_path
            Sample.outputs_at_r2 Sample.A "build"
            [Sample.r3; Sample.r2; Sample.r1] _))
          Sample.r1 Sample.r2 Sample.r3
          (Sample.built_at (Revision.hash Sample.r2))
          (Artifact.mk "DOCKER_IMAGE" (Revision.hash Sample.r2))
          _ _ _ _ _ _ _ _).
  - discriminate.
  - reflexivity.
  - reflexivity.
  - reflexivity.
  - reflexivity.
  - reflexivity.
  - reflexivity.
  - reflexivity.
  - discriminate.
Defined.

(** C2: for the deploy stage the relevant changes are the touched files of
    every revision of the history, whatever output is recorded. *)
Theorem relevant_changes_deploy (STAGE_NAME : string)
    (target_path : Project.t → string)
    (try_read : string → string → option Output.t)
    (project : Project.t) (history : list Revision.t) :
  _to_relevant_changes STAGE_NAME target_path try_read project STAGE_NAME history
  = files_of history
  ∧ (∀ x, x ∈ _to_relevant_changes STAGE_NAME target_path try_read project
                  STAGE_NAME history
          ↔ ∃ r, r ∈ history ∧ x ∈ Revision.files_touched r).
Proof.
  assert (H : _to_relevant_changes STAGE_NAME target_path try_read project
                STAGE_NAME history = files_of history).
  { unfold _to_relevant_changes.
    rewrite relevant_loop_all.
    - rewrite (left_id_L ∅ (∪)). apply files_of_perm, walk_order.
    - intros r _. by rewrite String.eqb_refl. }
  split; [exact H |].
  intros x. rewrite H. apply elem_of_files_of.
Qed.

(** ** The build set *)

Lemma participates_declares p stage : participates p stage → declares p stage.
Proof.
  unfold participates, declares.
  by destruct (Stages.for_stage (Project.stages p) (Stage.name stage)).
Qed.

Lemma narrowed_idemp sel (X : gset Project.t) :
  narrowed sel (narrowed sel X) = narrowed sel X.
Proof.
  unfold narrowed. destruct (truthy sel); [| done].
  apply set_eq. intros p. rewrite !elem_of_filter. tauto.
Qed.

Lemma elem_of_narrowed sel (X : gset Project.t) p :
  truthy sel = true →
  p ∈ narrowed sel X ↔ Project.name p ∈ projects_list sel ∧ p ∈ X.
Proof. intros Hsel. unfold narrowed. rewrite Hsel. by rewrite elem_of_filter. Qed.

Lemma elem_of_for_stage (X : gset Project.t) stage p :
  p ∈ for_stage X stage ↔ participates p stage ∧ p ∈ X.
Proof. unfold for_stage. by rewrite elem_of_filter. Qed.

Section build_set.
Variable STAGE_NAME : string.
Variable target_path : Project.t → string.
Variable try_read : string → string → option Output.t.
Variable all_projects : gset Project.t.
Variable changes_in_branch : list Revision.t.
Variable build_all : bool.
Variable selected_stage selected_projects : option string.

Lemma loop_projects_narrowed cur :
  loop_projects all_projects selected_projects cur →
  narrowed selected_projects cur = narrowed selected_projects all_projects.
Proof. intros [->| ->]; [done | apply narrowed_idemp]. Qed.

Lemma find_build_set_step_spec cur build_set stage :
  loop_projects all_projects selected_projects cur →
  ∃ cur',
    loop_projects all_projects selected_projects cur'
    ∧ find_build_set_step STAGE_NAME target_path try_read changes_in_branch
        build_all selected_stage selected_projects (cur, build_set) stage
      = (cur', if skipped selected_stage stage then build_set
               else <[stage := stage_executions STAGE_NAME target_path try_read
        all_projects changes_in_branch build_all selected_projects stage]> build_set).
Proof.
  intros Hcur. unfold find_build_set_step, stage_executions.
  destruct (skipped selected_stage stage); [by exists cur |].
  destruct (build_all || truthy selected_projects) eqn:Hmode.
  - exists (narrowed selected_projects cur). split.
    + right. by apply loop_projects_narrowed.
    + fold (narrowed selected_projects cur).
      by rewrite (loop_projects_narrowed cur).
  - exists cur. split; [done |].
    apply orb_false_iff in Hmode as [_ Hsel].
    destruct Hcur as [->| ->]; [done |].
    unfold narrowed. by rewrite Hsel.
Qed.

Lemma find_build_set_loop stages cur build_set stage :
  loop_projects all_projects selected_projects cur →
  (foldl (find_build_set_step STAGE_NAME target_path try_read
            changes_in_branch build_all selected_stage selected_projects)
         (cur, build_set) stages).2 !! stage
  = if decide (stage ∈ stages ∧ skipped selected_stage stage = false)
    then Some (stage_executions STAGE_NAME target_path try_read
        all_projects changes_in_branch build_all selected_projects stage)
    else build_set !! stage.
Proof.
  revert cur build_set.
  induction stages as [|s stages IH]; intros cur build_set Hcur; cbn [foldl].
  - rewrite decide_False; [done |]. intros [H _]. by apply elem_of_nil in H.
  - destruct (find_build_set_step_spec cur build_set s Hcur)
      as (cur' & Hcur' & ->).
    rewrite (IH _ _ Hcur').
    destruct (decide (stage ∈ stages ∧ skipped selected_stage stage = false))
      as [[Hin Hsk]|Hnot].
    + rewrite decide_True; [done |]. split; [by right | done].
    + destruct (decide (s = stage)) as [->|Hne].
      * destruct (skipped selected_stage stage) eqn:Hsk.
        -- rewrite decide_False; [done |]. by intros [_ ?].
        -- rewrite lookup_insert_eq.
           rewrite decide_True; [done |]. split; [left | done].
      * rewrite decide_False.
        -- destruct (skipped selected_stage s); [done |].
           by rewrite lookup_insert_ne.
        -- intros [Hin Hsk]. apply Hnot. split; [| done].
           apply elem_of_cons in Hin as [->|Hin]; done.
Qed.

(** The build set maps each stage of [stages] that is not skipped to its
    executions, and has no other key. *)
Lemma find_build_set_lookup stages stage :
  find_build_set STAGE_NAME target_path try_read all_projects
    changes_in_branch stages build_all selected_stage selected_projects
    !! stage
  = if decide (stage ∈ stages ∧ skipped selected_stage stage = false)
    then Some (stage_executions STAGE_NAME target_path try_read
        all_projects changes_in_branch build_all selected_projects stage)
    else None.
Proof.
  unfold find_build_set. rewrite find_build_set_loop by (by left).
  by rewrite lookup_empty.
Qed.
End build_set.

(** ** Membership in the executions of a stage *)

Section executions.
Variable STAGE_NAME : string.
Variable target_path : Project.t → string.
Variable try_read : string → string → option Output.t.

Lemma to_project_execution_Some project stage change_history e :
  _to_project_execution STAGE_NAME target_path try_read project stage
    change_history = Some e
  ↔ is_Some (Stages.for_stage (Project.stages project) stage)
    ∧ files_changed_for STAGE_NAME target_path try_read project stage
              change_history ≠ ∅
    ∧ e = ProjectExecution.mk project
            (files_changed_for STAGE_NAME target_path try_read project stage
              change_history).
Proof.
  unfold _to_project_execution.
  fold (files_changed_for STAGE_NAME target_path try_read project stage
              change_history).
  destruct (Stages.for_stage (Project.stages project) stage) as [cfg|].
  - destruct (decide (files_changed_for STAGE_NAME target_path try_read project stage
              change_history = ∅))
      as [Hempty|Hne].
    + split; [done | by intros (_ & ? & _)].
    + split.
      * intros [= <-]. by split_and!.
      * by intros (_ & _ & ->).
  - split; [done | by intros ([? ?] & _)].
Qed.

Lemma elem_of_build_project_executions all_projects stage change_history e :
  e ∈ build_project_executions STAGE_NAME target_path try_read all_projects
        stage change_history
  ↔ ∃ p, p ∈ all_projects
         ∧ _to_project_execution STAGE_NAME target_path try_read p stage
             change_history = Some e.
Proof.
  unfold build_project_executions. rewrite elem_of_set_omap. split.
  - intros (o & Ho & Hid). simpl in Hid. subst o.
    apply elem_of_map in Ho as (p & Hp & Hin). by exists p.
  - intros (p & Hin & Hp). exists (Some e). split; [| done].
    apply elem_of_map. by exists p.
Qed.

Lemma elem_of_stage_executions_forced all_projects changes_in_branch
    build_all selected_projects stage e :
  build_all || truthy selected_projects = true →
  e ∈ stage_executions STAGE_NAME target_path try_read all_projects
        changes_in_branch build_all selected_projects stage
  ↔ ∃ p, p ∈ narrowed selected_projects all_projects
         ∧ participates p stage
         ∧ e = ProjectExecution.mk p ∅.
Proof.
  intros Hmode. unfold stage_executions. rewrite Hmode, elem_of_map.
  setoid_rewrite elem_of_for_stage. unfold forced. naive_solver.
Qed.

Lemma stage_executions_declares all_projects changes_in_branch build_all
    selected_projects stage e :
  e ∈ stage_executions STAGE_NAME target_path try_read all_projects
        changes_in_branch build_all selected_projects stage →
  declares (ProjectExecution.project e) stage.
Proof.
  destruct (build_all || truthy selected_projects) eqn:Hmode.
  - rewrite elem_of_stage_executions_forced by done.
    intros (p & _ & Hp & ->). by apply participates_declares.
  - unfold stage_executions. rewrite Hmode.
    rewrite elem_of_build_project_executions.
    intros (p & _ & Hp). apply to_project_execution_Some in Hp as (? & _ & ->).
    done.
Qed.
End executions.

(** C8: whatever the selection mode (forced full build, explicit project
    filter, incremental), an execution belongs to the set of a stage in the
    build set only if its project has an entry for that stage. *)
Theorem executions_declare_stage (STAGE_NAME : string)
    (target_path : Project.t → string)
    (try_read : string → string → option Output.t)
    (all_projects : gset Project.t) (changes_in_branch : list Revision.t)
    (stages : list Stage.t) (build_all : bool)
    (selected_stage selected_projects : option string)
    (stage : Stage.t) (executions : gset ProjectExecution.t)
    (e : ProjectExecution.t) :
  find_build_set STAGE_NAME target_path try_read all_projects
    changes_in_branch stages build_all selected_stage selected_projects
    !! stage = Some executions →
  e ∈ executions →
  is_Some (Stages.for_stage (Project.stages (ProjectExecution.project e))
             (Stage.name stage)).
Proof.
  rewrite find_build_set_lookup. case_decide; [| done].
  intros [= <-] He. by eapply stage_executions_declares.
Qed.


Lemma Sample_A_participates : participates Sample.A Sample.BUILD.
Proof.
  unfold participates, Stages.for_stage, Sample.A, Sample.BUILD.
  cbn [Project.stages Stage.name]. by rewrite lookup_singleton_eq.
Qed.

Lemma Sample_B_participates : participates Sample.B Sample.BUILD.
Proof.
  unfold participates, Stages.for_stage, Sample.B, Sample.BUILD.
  cbn [Project.stages Stage.name]. by rewrite lookup_singleton_eq.
Qed.

Lemma executions_declare_stage_witness :
  is_Some (Stages.for_stage (Project.stages Sample.A)
             (Stage.name Sample.BUILD)).
Proof.
  apply (executions_declare_stage "deploy" Sample.target_path
           Sample.no_outputs {[Sample.A]} [] [Sample.BUILD] true None None
           Sample.BUILD
           (stage_executions "deploy" Sample.target_path Sample.no_outputs
              {[Sample.A]} [] true None Sample.BUILD)
           (ProjectExecution.mk Sample.A ∅)).
  - rewrite find_build_set_lookup. apply decide_True.
    split; [left | reflexivity].
  - apply elem_of_stage_executions_forced; [reflexivity |].
    exists Sample.A. split_and!.
    + by apply elem_of_singleton.
    + apply Sample_A_participates.
    + reflexivity.
Defined.


Lemma build_project_executions_ext (STAGE_NAME : string)
    (target_path : Project.t → string)
    (try_read1 try_read2 : string → string → option Output.t)
    (all_projects : gset Project.t) (stage : string)
    (change_history : list Revision.t) :
  (∀ p, p ∈ all_projects →
        try_read1 (target_path p) stage = try_read2 (target_path p) stage) →
  build_project_executions STAGE_NAME target_path try_read1 all_projects stage
    change_history
  = build_project_executions STAGE_NAME target_path try_read2 all_projects
      stage change_history.
Proof.
  intros Hsame. apply set_eq. intros e.
  rewrite !elem_of_build_project_executions.
  split; intros (p & Hin & Hp); exists p; (split; [done |]);
    rewrite <- Hp; unfold _to_project_execution, _to_relevant_changes;
    by rewrite (Hsame p Hin).
Qed.

(** C7: the build set is a function of the revision history, the projects,
    the recorded outputs of these projects for the stages at hand, the stages
    and the selection policy: two calls that are given the same of each
    return build sets with the same stages and the same executions for each
    stage. *)
Theorem find_build_set_deterministic (STAGE_NAME : string)
    (target_path : Project.t → string)
    (try_read1 try_read2 : string → string → option Output.t)
    (all_projects : gset Project.t) (changes_in_branch : list Revision.t)
    (stages : list Stage.t) (build_all : bool)
    (selected_stage selected_projects : option string) :
  (∀ p stage, p ∈ all_projects → stage ∈ stages →
      try_read1 (target_path p) (Stage.name stage)
      = try_read2 (target_path p) (Stage.name stage)) →
  find_build_set STAGE_NAME target_path try_read1 all_projects
    changes_in_branch stages build_all selected_stage selected_projects
  = find_build_set STAGE_NAME target_path try_read2 all_projects
      changes_in_branch stages build_all selected_stage selected_projects.
Proof.
  intros Hsame. apply map_eq. intros stage.
  rewrite !find_build_set_lookup.
  case_decide as Hstage; [| done]. destruct Hstage as [Hin _].
  f_equal. unfold stage_executions.
  destruct (build_all || truthy selected_projects); [done |].
  apply build_project_executions_ext. intros p Hp. by apply Hsame.
Qed.

Lemma find_build_set_deterministic_witness :
  find_build_set "deploy" Sample.target_path Sample.outputs_of_A
    {[Sample.A]} [Sample.r3; Sample.r2; Sample.r1] [Sample.BUILD] false
    None None
  = find_build_set "deploy" Sample.target_path Sample.outputs_at_r2
      {[Sample.A]} [Sample.r3; Sample.r2; Sample.r1] [Sample.BUILD] false
      None None.
Proof.
  apply find_build_set_deterministic.
  intros p stage Hp Hstage.
  apply elem_of_singleton in Hp. apply list_elem_of_singleton in Hstage.
  subst p stage. reflexivity.
Defined.

(** ** Dependency propagation *)

Lemma relevant_changes_no_output (STAGE_NAME : string)
    (target_path : Project.t → string)
    (try_read : string → string → option Output.t)
    (project : Project.t) (stage : string) (history : list Revision.t) :
  try_read (target_path project) stage = None →
  _to_relevant_changes STAGE_NAME target_path try_read project stage history
  = files_of history.
Proof.
  intros Hnone. unfold _to_relevant_changes. rewrite Hnone.
  rewrite relevant_loop_all.
  - rewrite (left_id_L ∅ (∪)). apply files_of_perm, walk_order.
  - intros r _. apply orb_true_r.
Qed.

Lemma singleton_not_empty (x : string) : ({[x]} : gset string) ≠ ∅.
Proof.
  intros H. apply (not_elem_of_empty (C:=gset string) x).
  rewrite <- H. by apply elem_of_singleton.
Qed.

(** C9: projects A (root [svcA/], no dependencies for the build stage) and B
    (root [svcB/], depending on [shared/] for the build stage) both take part
    in the build stage, the history is the one revision [r1] that touches
    [shared/util.go], and no output is recorded for A or B: the incremental
    build set has, for the build stage, no execution of A and exactly one
    execution, that of B with the changed file [shared/util.go]. *)
Theorem dependency_propagation (STAGE_NAME : string)
    (target_path : Project.t → string)
    (try_read : string → string → option Output.t)
    (A B : Project.t) (r1 : Revision.t) :
  Project.root_path A = "svcA/" →
  declared_dependencies A "build" = ∅ →
  Project.root_path B = "svcB/" →
  declared_dependencies B "build" = {["shared/"]} →
  is_Some (Stages.for_stage (Project.stages A) "build") →
  is_Some (Stages.for_stage (Project.stages B) "build") →
  Revision.files_touched r1 = {["shared/util.go"]} →
  try_read (target_path A) "build" = None →
  try_read (target_path B) "build" = None →
  ∃ executions : gset ProjectExecution.t,
    find_build_set STAGE_NAME target_path try_read {[A; B]} [r1]
      [Stage.mk "build"] false None None !! Stage.mk "build"
    = Some executions
    ∧ executions = {[ProjectExecution.mk B {["shared/util.go"]}]}
    ∧ (∀ e, e ∈ executions → ProjectExecution.project e ≠ A).
Proof.
  intros HrootA HdepsA HrootB HdepsB HstageA HstageB Hfiles HoutA HoutB.
  assert (HfilesA :
    files_changed_for STAGE_NAME target_path try_read A "build" [r1] = ∅).
  { unfold files_changed_for.
    rewrite relevant_changes_no_output, files_of_singleton, Hfiles by done.
    apply (filter_singleton_False_L
             (λ c, is_invalidated A "build" c = true)).
    intros Hinv.
    apply is_invalidated_spec in Hinv as [Hpre|(d & Hd & _)].
    - rewrite HrootA in Hpre. apply startswith_prefixed_by in Hpre.
      discriminate Hpre.
    - rewrite HdepsA in Hd. by apply not_elem_of_empty in Hd. }
  assert (HfilesB :
    files_changed_for STAGE_NAME target_path try_read B "build" [r1]
    = {["shared/util.go"]}).
  { unfold files_changed_for.
    rewrite relevant_changes_no_output, files_of_singleton, Hfiles by done.
    apply (filter_singleton_True_L
             (λ c, is_invalidated B "build" c = true)).
    apply is_invalidated_spec. right. exists "shared/". split.
    - rewrite HdepsB. by apply elem_of_singleton.
    - by apply startswith_prefixed_by. }
  assert (Hmem : ∀ e,
    e ∈ build_project_executions STAGE_NAME target_path try_read {[A; B]}
          "build" [r1]
    ↔ e = ProjectExecution.mk B {["shared/util.go"]}).
  { intros e. rewrite elem_of_build_project_executions. split.
    - intros (p & Hp & He).
      apply to_project_execution_Some in He as (_ & Hne & ->).
      apply elem_of_union in Hp as [Hp|Hp]; apply elem_of_singleton in Hp;
        subst p.
      + by rewrite HfilesA in Hne.
      + by rewrite HfilesB.
    - intros ->. exists B. split.
      + apply elem_of_union. right. by apply elem_of_singleton.
      + apply to_project_execution_Some. rewrite HfilesB.
        split_and!; [done | apply singleton_not_empty | done]. }
  exists (build_project_executions STAGE_NAME target_path try_read {[A; B]}
            "build" [r1]).
  split_and!.
  - rewrite find_build_set_lookup. apply decide_True. split; [left | done].
  - apply set_eq. intros e. by rewrite Hmem, elem_of_singleton.
  - intros e He. apply Hmem in He as ->. simpl. intros <-.
    rewrite HrootA in HrootB. discriminate HrootB.
Qed.

Lemma dependency_propagation_witness :
  ∃ executions : gset ProjectExecution.t,
    find_build_set "deploy" Sample.target_path Sample.no_outputs
      {[Sample.A; Sample.B]} [Sample.r1] [Stage.mk "build"] false None None
      !! Stage.mk "build"
    = Some executions
    ∧ executions = {[ProjectExecution.mk Sample.B {["shared/util.go"]}]}
    ∧ (∀ e, e ∈ executions → ProjectExecution.project e ≠ Sample.A).
Proof.
  apply (dependency_propagation "deploy" Sample.target_path Sample.no_outputs
           Sample.A Sample.B Sample.r1).
  - reflexivity.
  - reflexivity.
  - reflexivity.
  - unfold declared_dependencies, Dependencies.set_for_stage, Sample.B.
    cbn [Project.dependencies]. by rewrite lookup_singleton_eq.
  - apply (participates_declares Sample.A Sample.BUILD), Sample_A_participates.
  - apply (participates_declares Sample.B Sample.BUILD), Sample_B_participates.
  - reflexivity.
  - reflexivity.
  - reflexivity.
Defined.

(** ** The explicit project filter *)

Lemma explicit_filter_executions (STAGE_NAME : string)
    (target_path : Project.t → string)
    (try_read : string → string → option Output.t)
    (all_projects : gset Project.t) (changes_in_branch : list Revision.t)
    (build_all : bool) (selected_projects : option string)
    (stage : Stage.t) (e : ProjectExecution.t) :
  truthy selected_projects = true →
  e ∈ stage_executions STAGE_NAME target_path try_read all_projects
        changes_in_branch build_all selected_projects stage
  ↔ ∃ p, p ∈ all_projects
         ∧ Project.name p ∈ projects_list selected_projects
         ∧ participates p stage
         ∧ e = ProjectExecution.mk p ∅.
Proof.
  intros Hsel.
  rewrite elem_of_stage_executions_forced by (rewrite Hsel; apply orb_true_r).
  split.
  - intros (p & Hp & Hpart & ->).
    apply elem_of_narrowed in Hp as [Hname Hp]; [| done]. by exists p.
  - intros (p & Hp & Hname & Hpart & ->). exists p.
    split; [| done]. by apply elem_of_narrowed.
Qed.





(** ** Further properties of the discovery *)

Lemma relevant_loop_subset (STAGE_NAME stage : string)
    (output : option Output.t) (walk : list Revision.t)
    (relevant : gset string) (x : string) :
  x ∈ relevant_loop STAGE_NAME stage output walk relevant →
  x ∈ relevant ∨ x ∈ files_of walk.
Proof.
  revert relevant. induction walk as [|r walk IH]; intros relevant; simpl.
  - by left.
  - destruct (String.eqb stage STAGE_NAME
              || output_invalidated output (Revision.hash r)).
    + intros Hx. apply IH in Hx as [Hx|Hx].
      * apply elem_of_union in Hx as [Hx|Hx]; [by left |].
        right. apply elem_of_files_of. exists r. split; [left | done].
      * right. apply elem_of_files_of in Hx as (r' & Hr' & Hx).
        apply elem_of_files_of. exists r'. split; [by right | done].
    + by left.
Qed.

Lemma relevant_changes_touched (STAGE_NAME : string)
    (target_path : Project.t → string)
    (try_read : string → string → option Output.t)
    (project : Project.t) (stage : string) (history : list Revision.t)
    (x : string) :
  x ∈ _to_relevant_changes STAGE_NAME target_path try_read project stage
        history →
  ∃ r, r ∈ history ∧ x ∈ Revision.files_touched r.
Proof.
  unfold _to_relevant_changes. intros Hx.
  apply relevant_loop_subset in Hx as [Hx|Hx].
  - by apply not_elem_of_empty in Hx.
  - rewrite (files_of_perm _ history) in Hx by apply walk_order.
    by apply elem_of_files_of.
Qed.

Lemma elem_of_files_changed_for (STAGE_NAME : string)
    (target_path : Project.t → string)
    (try_read : string → string → option Output.t)
    (project : Project.t) (stage : string) (history : list Revision.t)
    (c : string) :
  c ∈ files_changed_for STAGE_NAME target_path try_read project stage history
  ↔ is_invalidated project stage c = true
    ∧ c ∈ _to_relevant_changes STAGE_NAME target_path try_read project stage
            history.
Proof. unfold files_changed_for. by rewrite elem_of_filter. Qed.

Lemma stage_executions_incremental (STAGE_NAME : string)
    (target_path : Project.t → string)
    (try_read : string → string → option Output.t)
    (all_projects : gset Project.t) (changes_in_branch : list Revision.t)
    (selected_projects : option string) (stage : Stage.t) :
  truthy selected_projects = false →
  stage_executions STAGE_NAME target_path try_read all_projects
    changes_in_branch false selected_projects stage
  = build_project_executions STAGE_NAME target_path try_read all_projects
      (Stage.name stage) changes_in_branch.
Proof. intros Hsel. unfold stage_executions. by rewrite Hsel. Qed.

Lemma find_build_set_lookup_Some (STAGE_NAME : string)
    (target_path : Project.t → string)
    (try_read : string → string → option Output.t)
    (all_projects : gset Project.t) (changes_in_branch : list Revision.t)
    (stages : list Stage.t) (build_all : bool)
    (selected_stage selected_projects : option string)
    (stage : Stage.t) (executions : gset ProjectExecution.t) :
  find_build_set STAGE_NAME target_path try_read all_projects
    changes_in_branch stages build_all selected_stage selected_projects
    !! stage = Some executions →
  stage ∈ stages ∧ skipped selected_stage stage = false
  ∧ executions = stage_executions STAGE_NAME target_path try_read
                   all_projects changes_in_branch build_all selected_projects
                   stage.
Proof.
  rewrite find_build_set_lookup. case_decide as H; [| done].
  destruct H. by intros [= <-].
Qed.

(** X1: in the incremental mode every execution of the build set is that of a
    loaded project, carries at least one changed file, and each of its changed
    files is touched by a revision of the history and invalidates the project
    for the stage. *)
Theorem incremental_executions_justified (STAGE_NAME : string)
    (target_path : Project.t → string)
    (try_read : string → string → option Output.t)
    (all_projects : gset Project.t) (changes_in_branch : list Revision.t)
    (stages : list Stage.t) (selected_stage selected_projects : option string)
    (stage : Stage.t) (executions : gset ProjectExecution.t)
    (e : ProjectExecution.t) :
  truthy selected_projects = false →
  find_build_set STAGE_NAME target_path try_read all_projects
    changes_in_branch stages false selected_stage selected_projects
    !! stage = Some executions →
  e ∈ executions →
  ProjectExecution.project e ∈ all_projects
  ∧ ProjectExecution.changed_files e ≠ ∅
  ∧ ∀ c, c ∈ ProjectExecution.changed_files e →
         (∃ r, r ∈ changes_in_branch ∧ c ∈ Revision.files_touched r)
         ∧ is_invalidated (ProjectExecution.project e) (Stage.name stage) c
           = true.
Proof.
  intros Hsel Hlookup He.
  apply find_build_set_lookup_Some in Hlookup as (_ & _ & ->).
  rewrite stage_executions_incremental in He by done.
  apply elem_of_build_project_executions in He as (p & Hp & He).
  apply to_project_execution_Some in He as (_ & Hne & ->). simpl.
  split_and!; [done | done |].
  intros c Hc. apply elem_of_files_changed_for in Hc as [Hinv Hc].
  split; [| done]. by eapply relevant_changes_touched.
Qed.

(** X2: whatever the selection mode, the set of a stage never holds two
    executions of the same project. *)
Theorem one_execution_per_project (STAGE_NAME : string)
    (target_path : Project.t → string)
    (try_read : string → string → option Output.t)
    (all_projects : gset Project.t) (changes_in_branch : list Revision.t)
    (stages : list Stage.t) (build_all : bool)
    (selected_stage selected_projects : option string)
    (stage : Stage.t) (executions : gset ProjectExecution.t)
    (e1 e2 : ProjectExecution.t) :
  find_build_set STAGE_NAME target_path try_read all_projects
    changes_in_branch stages build_all selected_stage selected_projects
    !! stage = Some executions →
  e1 ∈ executions → e2 ∈ executions →
  ProjectExecution.project e1 = ProjectExecution.project e2 →
  e1 = e2.
Proof.
  intros Hlookup He1 He2.
  apply find_build_set_lookup_Some in Hlookup as (_ & _ & ->).
  destruct (build_all || truthy selected_projects) eqn:Hmode.
  - apply elem_of_stage_executions_forced in He1 as (p1 & _ & _ & ->);
      [| done].
    apply elem_of_stage_executions_forced in He2 as (p2 & _ & _ & ->);
      [| done].
    simpl. by intros ->.
  - unfold stage_executions in He1, He2. rewrite Hmode in He1, He2.
    apply elem_of_build_project_executions in He1 as (p1 & _ & He1).
    apply elem_of_build_project_executions in He2 as (p2 & _ & He2).
    apply to_project_execution_Some in He1 as (_ & _ & ->).
    apply to_project_execution_Some in He2 as (_ & _ & ->).
    simpl. by intros ->.
Qed.

Lemma skipped_false_iff (selected_stage : option string) (stage : Stage.t) :
  skipped selected_stage stage = false
  ↔ selected_stage = None ∨ selected_stage = Some ""
    ∨ selected_stage = Some (Stage.name stage).
Proof.
  unfold skipped, truthy. destruct selected_stage as [s|].
  - destruct (String.eqb_spec s "") as [->|Hs]; simpl.
    + split; [intros _; right; by left | done].
    + destruct (String.eqb_spec s (Stage.name stage)) as [->|Hne]; simpl.
      * split; [intros _; right; by right | done].
      * split; [done |]. intros [?|[?|?]]; congruence.
  - split; [intros _; by left | done].
Qed.

(** X3: the keys of the build set are the stages of [stages] that pass the
    stage filter: all of them when no stage is selected or the selection is
    the empty string, otherwise those that bear the selected name; a stage
    that is filtered out is absent from the build set, not mapped to the empty
    set. *)
Theorem build_set_keys (STAGE_NAME : string)
    (target_path : Project.t → string)
    (try_read : string → string → option Output.t)
    (all_projects : gset Project.t) (changes_in_branch : list Revision.t)
    (stages : list Stage.t) (build_all : bool)
    (selected_stage selected_projects : option string) (stage : Stage.t) :
  is_Some (find_build_set STAGE_NAME target_path try_read all_projects
             changes_in_branch stages build_all selected_stage
             selected_projects !! stage)
  ↔ stage ∈ stages
    ∧ (selected_stage = None ∨ selected_stage = Some ""
       ∨ selected_stage = Some (Stage.name stage)).
Proof.
  rewrite find_build_set_lookup, <- skipped_false_iff.
  case_decide as H.
  - split; [done | by eexists].
  - split; [by intros [? ?] | done].
Qed.

Lemma Sample_empty_step_declares :
  declares Sample.empty_step Sample.BUILD
  ∧ ¬ participates Sample.empty_step Sample.BUILD.
Proof.
  unfold declares, participates, Stages.for_stage, Sample.empty_step,
    Sample.BUILD.
  cbn [Project.stages Stage.name]. rewrite lookup_singleton_eq.
  split; [by eexists | done].
Qed.

(** C6, as stated, fails on two inputs.  With [build_all] set, a project
    whose build entry is present but empty gets no execution: the set of the
    build stage is empty.  With [build_all] set and the explicit filter [A],
    project B, which takes part in the build stage, gets no execution: the
    set holds the execution of A alone. *)
Lemma forced_build_misses_projects :
  (Sample.empty_step ∈ ({[Sample.empty_step]} : gset Project.t)
   ∧ is_Some (Stages.for_stage (Project.stages Sample.empty_step)
                (Stage.name Sample.BUILD))
   ∧ find_build_set "deploy" Sample.target_path Sample.no_outputs
       {[Sample.empty_step]} [Sample.r1] [Sample.BUILD] true None None
       !! Sample.BUILD = Some ∅)
  ∧ (Sample.B ∈ ({[Sample.A; Sample.B]} : gset Project.t)
     ∧ is_Some (Stages.for_stage (Project.stages Sample.B)
                  (Stage.name Sample.BUILD))
     ∧ find_build_set "deploy" Sample.target_path Sample.no_outputs
         {[Sample.A; Sample.B]} [Sample.r1] [Sample.BUILD] true None
         (Some "A") !! Sample.BUILD
       = Some {[ProjectExecution.mk Sample.A ∅]}).
Proof.
  split; split_and!.
  - by apply elem_of_singleton.
  - apply Sample_empty_step_declares.
  - rewrite find_build_set_lookup.
    rewrite decide_True by (split; [left | done]).
    apply (f_equal Some). apply set_eq. intros e.
    rewrite elem_of_stage_executions_forced by done. split.
    + intros (p & Hp & Hpart & _). unfold narrowed in Hp. simpl in Hp.
      apply elem_of_singleton in Hp as ->.
      by apply Sample_empty_step_declares in Hpart.
    + intros He. by apply not_elem_of_empty in He.
  - apply elem_of_union. right. by apply elem_of_singleton.
  - apply (participates_declares Sample.B Sample.BUILD), Sample_B_participates.
  - rewrite find_build_set_lookup.
    rewrite decide_True by (split; [left | done]).
    apply (f_equal Some). apply set_eq. intros e.
    rewrite explicit_filter_executions by done.
    rewrite elem_of_singleton. split.
    + intros (p & Hp & Hname & _ & ->).
      apply elem_of_union in Hp as [Hp|Hp]; apply elem_of_singleton in Hp;
        subst p; [done |].
      apply list_elem_of_singleton in Hname. discriminate Hname.
    + intros ->. exists Sample.A. split_and!.
      * apply elem_of_union. left. by apply elem_of_singleton.
      * left.
      * apply Sample_A_participates.
      * done.
Qed.

(** C6, amended: with [build_all] set and no explicit project filter
    ([selected_projects] absent or empty), for every stage under
    consideration and every revision history, the empty one included: each
    loaded project whose entry for the stage is present and not the empty
    string has exactly one execution in the set of the stage, with no changed
    files; and every execution of the set is that of a loaded project that
    has an entry for the stage, with no changed files. *)
Theorem forced_full_build (STAGE_NAME : string)
    (target_path : Project.t → string)
    (try_read : string → string → option Output.t)
    (all_projects : gset Project.t) (changes_in_branch : list Revision.t)
    (stages : list Stage.t) (selected_stage selected_projects : option string)
    (stage : Stage.t) :
  stage ∈ stages →
  selected_stage = None ∨ selected_stage = Some ""
  ∨ selected_stage = Some (Stage.name stage) →
  selected_projects = None ∨ selected_projects = Some "" →
  ∃ executions : gset ProjectExecution.t,
    find_build_set STAGE_NAME target_path try_read all_projects
      changes_in_branch stages true selected_stage selected_projects
      !! stage = Some executions
    ∧ (∀ p cfg,
         p ∈ all_projects →
         Stages.for_stage (Project.stages p) (Stage.name stage) = Some cfg →
         cfg ≠ "" →
         ∀ e, e ∈ executions ∧ ProjectExecution.project e = p
              ↔ e = ProjectExecution.mk p ∅)
    ∧ (∀ e, e ∈ executions →
            ProjectExecution.project e ∈ all_projects
            ∧ is_Some (Stages.for_stage
                         (Project.stages (ProjectExecution.project e))
                         (Stage.name stage))
            ∧ ProjectExecution.changed_files e = ∅)
    ∧ find_build_set STAGE_NAME target_path try_read all_projects
        [] stages true selected_stage selected_projects
        !! stage = Some executions.
Proof.
  intros Hin Hstage Hfilter.
  apply skipped_false_iff in Hstage.
  assert (Hsel : truthy selected_projects = false)
    by (by destruct Hfilter as [->| ->]).
  exists (stage_executions STAGE_NAME target_path try_read all_projects
            changes_in_branch true selected_projects stage).
  assert (Hmem : ∀ e,
    e ∈ stage_executions STAGE_NAME target_path try_read all_projects
          changes_in_branch true selected_projects stage
    ↔ ∃ p, p ∈ all_projects ∧ participates p stage
           ∧ e = ProjectExecution.mk p ∅).
  { intros e. rewrite elem_of_stage_executions_forced by done.
    unfold narrowed. by rewrite Hsel. }
  split_and!.
  - rewrite find_build_set_lookup. by apply decide_True.
  - intros p cfg Hp Hcfg Hne e.
    assert (Hpart : participates p stage).
    { unfold participates. rewrite Hcfg. simpl.
      by destruct (String.eqb_spec cfg ""). }
    rewrite Hmem. split.
    + intros [(p' & _ & _ & ->) <-]. done.
    + intros ->. split; [by exists p | done].
  - intros e He. apply Hmem in He as (p & Hp & Hpart & ->). simpl.
    split_and!; [done | by apply participates_declares | done].
  - rewrite find_build_set_lookup. by rewrite decide_True.
Qed.

Lemma forced_full_build_witness :
  ∃ executions : gset ProjectExecution.t,
    find_build_set "deploy" Sample.target_path Sample.no_outputs
      {[Sample.A; Sample.empty_step]} [] [Sample.BUILD] true None None
      !! Sample.BUILD = Some executions
    ∧ (∀ p cfg,
         p ∈ ({[Sample.A; Sample.empty_step]} : gset Project.t) →
         Stages.for_stage (Project.stages p) (Stage.name Sample.BUILD)
         = Some cfg →
         cfg ≠ "" →
         ∀ e, e ∈ executions ∧ ProjectExecution.project e = p
              ↔ e = ProjectExecution.mk p ∅)
    ∧ (∀ e, e ∈ executions →
            ProjectExecution.project e
            ∈ ({[Sample.A; Sample.empty_step]} : gset Project.t)
            ∧ is_Some (Stages.for_stage
                         (Project.stages (ProjectExecution.project e))
                         (Stage.name Sample.BUILD))
            ∧ ProjectExecution.changed_files e = ∅)
    ∧ find_build_set "deploy" Sample.target_path Sample.no_outputs
        {[Sample.A; Sample.empty_step]} [] [Sample.BUILD] true None None
        !! Sample.BUILD = Some executions.
Proof.
  apply (forced_full_build "deploy" Sample.target_path Sample.no_outputs
           {[Sample.A; Sample.empty_step]} [] [Sample.BUILD] None None
           Sample.BUILD).
  - left.
  - by left.
  - by left.
Defined.

Lemma Sample_B_files :
  files_changed_for "deploy" Sample.target_path Sample.no_outputs Sample.B
    "build" [Sample.r1]
  = {["shared/util.go"]}.
Proof.
  unfold files_changed_for.
  rewrite relevant_changes_no_output, files_of_singleton by done.
  unfold Sample.r1. cbn [Revision.files_touched].
  apply (filter_singleton_True_L
           (λ c, is_invalidated Sample.B "build" c = true)).
  apply is_invalidated_spec. right. exists "shared/". split.
  - unfold declared_dependencies, Dependencies.set_for_stage, Sample.B.
    cbn [Project.dependencies]. rewrite lookup_singleton_eq.
    by apply elem_of_singleton.
  - by apply startswith_prefixed_by.
Qed.

Lemma Sample_B_execution :
  _to_project_execution "deploy" Sample.target_path Sample.no_outputs
    Sample.B "build" [Sample.r1]
  = Some (ProjectExecution.mk Sample.B {["shared/util.go"]}).
Proof.
  apply to_project_execution_Some. rewrite Sample_B_files. split_and!.
  - apply (participates_declares Sample.B Sample.BUILD), Sample_B_participates.
  - apply singleton_not_empty.
  - done.
Qed.

Lemma Sample_incremental_lookup :
  find_build_set "deploy" Sample.target_path Sample.no_outputs
    {[Sample.A; Sample.B]} [Sample.r1] [Sample.BUILD] false None None
    !! Sample.BUILD
  = Some (build_project_executions "deploy" Sample.target_path
            Sample.no_outputs {[Sample.A; Sample.B]} "build" [Sample.r1]).
Proof.
  rewrite find_build_set_lookup. apply decide_True. split; [left | done].
Qed.

Lemma Sample_B_scheduled :
  ProjectExecution.mk Sample.B {["shared/util.go"]}
  ∈ build_project_executions "deploy" Sample.target_path Sample.no_outputs
      {[Sample.A; Sample.B]} "build" [Sample.r1].
Proof.
  apply elem_of_build_project_executions. exists Sample.B. split.
  - apply elem_of_union. right. by apply elem_of_singleton.
  - apply Sample_B_execution.
Qed.

Lemma incremental_executions_justified_witness :
  Sample.B ∈ ({[Sample.A; Sample.B]} : gset Project.t)
  ∧ ({["shared/util.go"]} : gset string) ≠ ∅
  ∧ ∀ c, c ∈ ({["shared/util.go"]} : gset string) →
         (∃ r, r ∈ [Sample.r1] ∧ c ∈ Revision.files_touched r)
         ∧ is_invalidated Sample.B "build" c = true.
Proof.
  pose proof (incremental_executions_justified "deploy" Sample.target_path
                Sample.no_outputs {[Sample.A; Sample.B]} [Sample.r1]
                [Sample.BUILD] None None Sample.BUILD _
                (ProjectExecution.mk Sample.B {["shared/util.go"]})
                eq_refl Sample_incremental_lookup Sample_B_scheduled) as H.
  cbn [ProjectExecution.project ProjectExecution.changed_files] in H.
  exact H.
Defined.

Lemma one_execution_per_project_witness :
  ProjectExecution.mk Sample.B {["shared/util.go"]}
  = ProjectExecution.mk Sample.B {["shared/util.go"]}.
Proof.
  exact (one_execution_per_project "deploy" Sample.target_path
           Sample.no_outputs {[Sample.A; Sample.B]} [Sample.r1]
           [Sample.BUILD] false None None Sample.BUILD _ _ _
           Sample_incremental_lookup Sample_B_scheduled Sample_B_scheduled
           eq_refl).
Defined.

(** X4: an empty string given as the selected stage or as the selected
    projects is taken as no selection at all. *)
Theorem empty_selection_is_none (STAGE_NAME : string)
    (target_path : Project.t → string)
    (try_read : string → string → option Output.t)
    (all_projects : gset Project.t) (changes_in_branch : list Revision.t)
    (stages : list Stage.t) (build_all : bool)
    (selected_stage selected_projects : option string) :
  find_build_set STAGE_NAME target_path try_read all_projects
    changes_in_branch stages build_all (Some "") selected_projects
  = find_build_set STAGE_NAME target_path try_read all_projects
      changes_in_branch stages build_all None selected_projects
  ∧ find_build_set STAGE_NAME target_path try_read all_projects
      changes_in_branch stages build_all selected_stage (Some "")
    = find_build_set STAGE_NAME target_path try_read all_projects
        changes_in_branch stages build_all selected_stage None.
Proof.
  split; apply map_eq; intros stage; rewrite !find_build_set_lookup.
  - done.
  - by case_decide.
Qed.

Lemma build_project_executions_nil (STAGE_NAME : string)
    (target_path : Project.t → string)
    (try_read : string → string → option Output.t)
    (all_projects : gset Project.t) (stage : string) :
  build_project_executions STAGE_NAME target_path try_read all_projects stage
    [] = ∅.
Proof.
  apply set_eq. intros e. rewrite elem_of_build_project_executions.
  split; [| intros He; by apply not_elem_of_empty in He].
  intros (p & _ & He). apply to_project_execution_Some in He as (_ & Hne & _).
  exfalso. apply Hne. apply set_eq. intros c.
  rewrite elem_of_files_changed_for. split.
  - intros [_ Hc]. apply relevant_changes_touched in Hc as (r & Hr & _).
    by apply elem_of_nil in Hr.
  - intros Hc. by apply not_elem_of_empty in Hc.
Qed.

(** X5: in the incremental mode an empty revision history schedules nothing:
    every stage that passes the stage filter is present in the build set and
    mapped to the empty set. *)
Theorem empty_history_schedules_nothing (STAGE_NAME : string)
    (target_path : Project.t → string)
    (try_read : string → string → option Output.t)
    (all_projects : gset Project.t) (stages : list Stage.t)
    (selected_stage : option string) (stage : Stage.t) :
  find_build_set STAGE_NAME target_path try_read all_projects [] stages
    false selected_stage None !! stage
  = if decide (stage ∈ stages ∧ skipped selected_stage stage = false)
    then Some ∅ else None.
Proof.
  rewrite find_build_set_lookup. case_decide; [| done].
  rewrite stage_executions_incremental by done.
  by rewrite build_project_executions_nil.
Qed.

Lemma Revision_eq_dec : EqDecision Revision.t.
Proof. solve_decision. Defined.

Lemma walk_head (history : list Revision.t) (r : Revision.t) :
  r ∈ history →
  (∀ r', r' ∈ history → r' ≠ r → Revision.ord r' < Revision.ord r) →
  ∃ rest, rev (sorted history) = r :: rest.
Proof.
  intros Hr Hmax.
  destruct (walk_order history) as [Hperm Hsorted].
  rewrite <- Hperm in Hr.
  destruct (rev (sorted history)) as [|x rest] eqn:Hwalk.
  - by apply elem_of_nil in Hr.
  - exists rest. f_equal.
    destruct (Revision_eq_dec x r) as [Heq|Hne]; [done |].
    assert (Hx : x ∈ history) by (rewrite <- Hperm; left).
    specialize (Hmax x Hx Hne).
    apply elem_of_cons in Hr as [->|Hr]; [done |].
    apply StronglySorted_cons in Hsorted as [Hrest _].
    rewrite Forall_forall in Hrest. specialize (Hrest r Hr).
    unfold ord_ge in Hrest. lia.
Qed.

(** X6: for a stage other than deploy, a project whose recorded output is
    successful with an artifact produced at the newest revision of the history
    has no relevant change, and no execution is made for it. *)
Theorem up_to_date_project_skipped (STAGE_NAME : string)
    (target_path : Project.t → string)
    (try_read : string → string → option Output.t)
    (project : Project.t) (stage : string) (history : list Revision.t)
    (r : Revision.t) (o : Output.t) (a : Artifact.t) :
  stage ≠ STAGE_NAME →
  r ∈ history →
  (∀ r', r' ∈ history → r' ≠ r → Revision.ord r' < Revision.ord r) →
  try_read (target_path project) stage = Some o →
  Output.success o = true →
  Output.produced_artifact o = Some a →
  Artifact.revision a = Revision.hash r →
  _to_relevant_changes STAGE_NAME target_path try_read project stage history
  = ∅
  ∧ _to_project_execution STAGE_NAME target_path try_read project stage
      history = None.
Proof.
  intros Hstage Hr Hmax Hout Hsucc Hart Hrev.
  assert (Hrel : _to_relevant_changes STAGE_NAME target_path try_read project
                   stage history = ∅).
  { destruct (walk_head history r Hr Hmax) as [rest Hwalk].
    unfold _to_relevant_changes. rewrite Hwalk, Hout. simpl.
    fold (output_invalidated (Some o) (Revision.hash r)).
    rewrite (output_invalidated_valid o a) by done.
    rewrite Hrev, String.eqb_refl.
    by destruct (String.eqb_spec stage STAGE_NAME). }
  split; [done |].
  destruct (_to_project_execution STAGE_NAME target_path try_read project
              stage history) as [e|] eqn:He; [| done].
  apply to_project_execution_Some in He as (_ & Hne & _).
  exfalso. apply Hne. unfold files_changed_for. rewrite Hrel.
  apply set_eq. intros c. rewrite elem_of_filter.
  split; [by intros [_ ?] | intros Hc; by apply not_elem_of_empty in Hc].
Qed.

Lemma up_to_date_project_skipped_witness :
  _to_relevant_changes "deploy" Sample.target_path Sample.outputs_at_r2
    Sample.A "build" [Sample.r2; Sample.r1] = ∅
  ∧ _to_project_execution "deploy" Sample.target_path Sample.outputs_at_r2
      Sample.A "build" [Sample.r2; Sample.r1] = None.
Proof.
  apply (up_to_date_project_skipped "deploy" Sample.target_path
           Sample.outputs_at_r2 Sample.A "build" [Sample.r2; Sample.r1]
           Sample.r2 (Sample.built_at (Revision.hash Sample.r2))
           (Artifact.mk "DOCKER_IMAGE" (Revision.hash Sample.r2))).
  - discriminate.
  - left.
  - intros r' Hr' Hne. apply elem_of_cons in Hr' as [->|Hr']; [done |].
    apply list_elem_of_singleton in Hr' as ->. reflexivity.
  - reflexivity.
  - reflexivity.
  - reflexivity.
  - reflexivity.
Defined.

(** X7: whatever the stage and the recorded output, the relevant changes are
    among the files touched by the revisions of the history, and among the
    relevant changes of the deploy stage: a recorded output can only make the
    set smaller. *)
Theorem relevant_changes_within_history (STAGE_NAME : string)
    (target_path : Project.t → string)
    (try_read : string → string → option Output.t)
    (project : Project.t) (stage : string) (history : list Revision.t) :
  _to_relevant_changes STAGE_NAME target_path try_read project stage history
  ⊆ files_of history
  ∧ _to_relevant_changes STAGE_NAME target_path try_read project stage history
    ⊆ _to_relevant_changes STAGE_NAME target_path try_read project STAGE_NAME
        history.
Proof.
  assert (H : _to_relevant_changes STAGE_NAME target_path try_read project
                stage history ⊆ files_of history).
  { intros x Hx. apply elem_of_files_of.
    by eapply relevant_changes_touched. }
  split; [done |].
  intros x Hx. apply H in Hx.
  unfold _to_relevant_changes. rewrite relevant_loop_all.
  - rewrite (left_id_L ∅ (∪)).
    by rewrite (files_of_perm _ history) by apply walk_order.
  - intros r _. by rewrite String.eqb_refl.
Qed.

Lemma relevant_changes_all_stale (STAGE_NAME : string)
    (target_path : Project.t → string)
    (try_read : string → string → option Output.t)
    (project : Project.t) (stage : string) (history : list Revision.t) :
  (∀ r, r ∈ history →
        output_invalidated (try_read (target_path project) stage)
          (Revision.hash r) = true) →
  _to_relevant_changes STAGE_NAME target_path try_read project stage history
  = files_of history.
Proof.
  intros Hstale. unfold _to_relevant_changes. rewrite relevant_loop_all.
  - rewrite (left_id_L ∅ (∪)). apply files_of_perm, walk_order.
  - intros r Hr. rewrite Hstale; [apply orb_true_r |].
    apply list_elem_of_In, in_rev, list_elem_of_In in Hr.
    by rewrite <- sorted_perm.
Qed.

(** X8: when no output is recorded, or the recorded output is a failure, or
    it has no artifact, or its artifact was produced at a revision that is not
    in the history, all the files touched in the history are relevant, for
    every stage. *)
Theorem untrusted_output_whole_history (STAGE_NAME : string)
    (target_path : Project.t → string)
    (try_read : string → string → option Output.t)
    (project : Project.t) (stage : string) (history : list Revision.t) :
  (try_read (target_path project) stage = None
   ∨ (∃ o, try_read (target_path project) stage = Some o
           ∧ Output.success o = false)
   ∨ (∃ o, try_read (target_path project) stage = Some o
           ∧ Output.produced_artifact o = None)
   ∨ (∃ o a, try_read (target_path project) stage = Some o
             ∧ Output.produced_artifact o = Some a
             ∧ ∀ r, r ∈ history → Revision.hash r ≠ Artifact.revision a)) →
  _to_relevant_changes STAGE_NAME target_path try_read project stage history
  = files_of history.
Proof.
  intros Hcases. apply relevant_changes_all_stale. intros r Hr.
  destruct Hcases as [->|[(o & -> & Hfail)|[(o & -> & Hnone)
                     |(o & a & -> & Hart & Hother)]]].
  - done.
  - unfold output_invalidated. by rewrite Hfail.
  - unfold output_invalidated. rewrite Hnone. by destruct (Output.success o).
  - unfold output_invalidated. rewrite Hart.
    destruct (Output.success o); [| done]. simpl.
    destruct (String.eqb_spec (Artifact.revision a) (Revision.hash r))
      as [Heq|Hne]; [| done].
    exfalso. by apply (Hother r Hr).
Qed.

Lemma untrusted_output_whole_history_witness :
  _to_relevant_changes "deploy" Sample.target_path Sample.outputs_at_r2
    Sample.A "build" [Sample.r3]
  = files_of [Sample.r3].
Proof.
  apply untrusted_output_whole_history. do 3 right.
  exists (Sample.built_at (Revision.hash Sample.r2)),
         (Artifact.mk "DOCKER_IMAGE" (Revision.hash Sample.r2)).
  split_and!; [reflexivity | reflexivity |].
  intros r Hr. apply list_elem_of_singleton in Hr as ->. discriminate.
Defined.

Lemma incremental_lookup (STAGE_NAME : string)
    (target_path : Project.t → string)
    (try_read : string → string → option Output.t)
    (all_projects : gset Project.t) (changes_in_branch : list Revision.t)
    (stages : list Stage.t) (selected_stage selected_projects : option string)
    (stage : Stage.t) :
  truthy selected_projects = false →
  stage ∈ stages →
  skipped selected_stage stage = false →
  find_build_set STAGE_NAME target_path try_read all_projects
    changes_in_branch stages false selected_stage selected_projects !! stage
  = Some (build_project_executions STAGE_NAME target_path try_read
            all_projects (Stage.name stage) changes_in_branch).
Proof.
  intros Hsel Hin Hskip. rewrite find_build_set_lookup.
  rewrite decide_True by done. by rewrite stage_executions_incremental.
Qed.

(** X9: in the incremental mode, the set of a stage holds the execution of
    project [p] with the changed files [files] exactly when [p] is loaded and
    has an entry for the stage, [files] is not empty, and [files] is the set
    of the relevant changes of [p] that invalidate it. *)
Theorem incremental_schedule_iff (STAGE_NAME : string)
    (target_path : Project.t → string)
    (try_read : string → string → option Output.t)
    (all_projects : gset Project.t) (changes_in_branch : list Revision.t)
    (stages : list Stage.t) (selected_stage selected_projects : option string)
    (stage : Stage.t) :
  truthy selected_projects = false →
  stage ∈ stages →
  skipped selected_stage stage = false →
  ∃ executions : gset ProjectExecution.t,
    find_build_set STAGE_NAME target_path try_read all_projects
      changes_in_branch stages false selected_stage selected_projects
      !! stage = Some executions
    ∧ ∀ p files,
        ProjectExecution.mk p files ∈ executions ↔
          p ∈ all_projects
          ∧ is_Some (Stages.for_stage (Project.stages p) (Stage.name stage))
          ∧ files ≠ ∅
          ∧ ∀ c, c ∈ files ↔
                 c ∈ _to_relevant_changes STAGE_NAME target_path try_read p
                       (Stage.name stage) changes_in_branch
                 ∧ is_invalidated p (Stage.name stage) c = true.
Proof.
  intros Hsel Hin Hskip. eexists. split; [by apply incremental_lookup |].
  intros p files. rewrite elem_of_build_project_executions. split.
  - intros (p' & Hp' & He).
    apply to_project_execution_Some in He as (Hentry & Hne & [= -> ->]).
    split_and!; try done.
    intros c. rewrite elem_of_files_changed_for. tauto.
  - intros (Hp & Hentry & Hne & Hfiles). exists p. split; [done |].
    assert (files = files_changed_for STAGE_NAME target_path try_read p
                      (Stage.name stage) changes_in_branch) as ->.
    { apply set_eq. intros c. rewrite Hfiles, elem_of_files_changed_for.
      tauto. }
    by apply to_project_execution_Some.
Qed.

Lemma incremental_schedule_iff_witness :
  ∃ executions : gset ProjectExecution.t,
    find_build_set "deploy" Sample.target_path Sample.no_outputs
      {[Sample.A; Sample.B]} [Sample.r1] [Sample.BUILD] false None None
      !! Sample.BUILD = Some executions
    ∧ ∀ p files,
        ProjectExecution.mk p files ∈ executions ↔
          p ∈ ({[Sample.A; Sample.B]} : gset Project.t)
          ∧ is_Some (Stages.for_stage (Project.stages p)
                       (Stage.name Sample.BUILD))
          ∧ files ≠ ∅
          ∧ ∀ c, c ∈ files ↔
                 c ∈ _to_relevant_changes "deploy" Sample.target_path
                       Sample.no_outputs p (Stage.name Sample.BUILD)
                       [Sample.r1]
                 ∧ is_invalidated p (Stage.name Sample.BUILD) c = true.
Proof.
  apply (incremental_schedule_iff "deploy" Sample.target_path
           Sample.no_outputs {[Sample.A; Sample.B]} [Sample.r1]
           [Sample.BUILD] None None Sample.BUILD).
  - reflexivity.
  - left.
  - reflexivity.
Defined.

(** X10: the incremental mode does not skip a project that cannot be trusted
    to be up to date: when the recorded output of a participating project is
    stale against every revision of the history, each touched file that
    invalidates the project puts it in the set of the stage, among the
    changed files of its execution. *)
Theorem stale_project_scheduled (STAGE_NAME : string)
    (target_path : Project.t → string)
    (try_read : string → string → option Output.t)
    (all_projects : gset Project.t) (changes_in_branch : list Revision.t)
    (stages : list Stage.t) (selected_stage selected_projects : option string)
    (stage : Stage.t) (p : Project.t) (r : Revision.t) (c : string) :
  truthy selected_projects = false →
  stage ∈ stages →
  skipped selected_stage stage = false →
  p ∈ all_projects →
  is_Some (Stages.for_stage (Project.stages p) (Stage.name stage)) →
  (∀ r', r' ∈ changes_in_branch →
         output_invalidated (try_read (target_path p) (Stage.name stage))
           (Revision.hash r') = true) →
  r ∈ changes_in_branch →
  c ∈ Revision.files_touched r →
  is_invalidated p (Stage.name stage) c = true →
  ∃ (executions : gset ProjectExecution.t) (e : ProjectExecution.t),
    find_build_set STAGE_NAME target_path try_read all_projects
      changes_in_branch stages false selected_stage selected_projects
      !! stage = Some executions
    ∧ e ∈ executions
    ∧ ProjectExecution.project e = p
    ∧ c ∈ ProjectExecution.changed_files e.
Proof.
  intros Hsel Hin Hskip Hp Hentry Hstale Hr Hc Hinv.
  assert (Hfile : c ∈ files_changed_for STAGE_NAME target_path try_read p
                        (Stage.name stage) changes_in_branch).
  { apply elem_of_files_changed_for. split; [done |].
    rewrite relevant_changes_all_stale by done.
    apply elem_of_files_of. by exists r. }
  eexists _, (ProjectExecution.mk p _).
  split_and!; [by apply incremental_lookup | | done | exact Hfile].
  apply elem_of_build_project_executions. exists p. split; [done |].
  apply to_project_execution_Some. split_and!; [done | | done].
  intros Hempty. rewrite Hempty in Hfile. by apply not_elem_of_empty in Hfile.
Qed.

Lemma Sample_B_invalidated :
  is_invalidated Sample.B "build" "shared/util.go" = true.
Proof.
  apply is_invalidated_spec. right. exists "shared/". split.
  - unfold declared_dependencies, Dependencies.set_for_stage, Sample.B.
    cbn [Project.dependencies]. rewrite lookup_singleton_eq.
    by apply elem_of_singleton.
  - by apply startswith_prefixed_by.
Qed.

Lemma stale_project_scheduled_witness :
  ∃ (executions : gset ProjectExecution.t) (e : ProjectExecution.t),
    find_build_set "deploy" Sample.target_path Sample.no_outputs
      {[Sample.A; Sample.B]} [Sample.r1] [Sample.BUILD] false None None
      !! Sample.BUILD = Some executions
    ∧ e ∈ executions
    ∧ ProjectExecution.project e = Sample.B
    ∧ "shared/util.go" ∈ ProjectExecution.changed_files e.
Proof.
  apply (stale_project_scheduled "deploy" Sample.target_path
           Sample.no_outputs {[Sample.A; Sample.B]} [Sample.r1]
           [Sample.BUILD] None None Sample.BUILD Sample.B Sample.r1).
  - reflexivity.
  - left.
  - reflexivity.
  - apply elem_of_union. right. by apply elem_of_singleton.
  - apply (participates_declares Sample.B Sample.BUILD), Sample_B_participates.
  - reflexivity.
  - left.
  - unfold Sample.r1. cbn [Revision.files_touched]. by apply elem_of_singleton.
  - apply Sample_B_invalidated.
Defined.

(** X11: for the deploy stage the recorded outputs play no part in the
    incremental mode: a loaded project is scheduled exactly when it has a
    deploy entry and some file touched by some revision of the history
    invalidates it. *)
Theorem deploy_schedule_iff (STAGE_NAME : string)
    (target_path : Project.t → string)
    (try_read : string → string → option Output.t)
    (all_projects : gset Project.t) (changes_in_branch : list Revision.t)
    (stages : list Stage.t) (selected_stage selected_projects : option string)
    (stage : Stage.t) :
  truthy selected_projects = false →
  stage ∈ stages →
  skipped selected_stage stage = false →
  Stage.name stage = STAGE_NAME →
  ∃ executions : gset ProjectExecution.t,
    find_build_set STAGE_NAME target_path try_read all_projects
      changes_in_branch stages false selected_stage selected_projects
      !! stage = Some executions
    ∧ ∀ p, (∃ e, e ∈ executions ∧ ProjectExecution.project e = p) ↔
           p ∈ all_projects
           ∧ is_Some (Stages.for_stage (Project.stages p) STAGE_NAME)
           ∧ ∃ r c, r ∈ changes_in_branch
                    ∧ c ∈ Revision.files_touched r
                    ∧ is_invalidated p STAGE_NAME c = true.
Proof.
  intros Hsel Hin Hskip Hname. eexists.
  split; [by apply incremental_lookup |]. rewrite Hname.
  assert (Hrel : ∀ p, _to_relevant_changes STAGE_NAME target_path try_read p
                        STAGE_NAME changes_in_branch
                      = files_of changes_in_branch).
  { intros p. unfold _to_relevant_changes. rewrite relevant_loop_all.
    - rewrite (left_id_L ∅ (∪)). apply files_of_perm, walk_order.
    - intros r _. by rewrite String.eqb_refl. }
  intros p. split.
  - intros (e & He & <-).
    apply elem_of_build_project_executions in He as (p & Hp & He).
    apply to_project_execution_Some in He as (Hentry & Hne & ->). simpl.
    split_and!; [done | done |].
    apply set_choose_L in Hne as (c & Hc).
    apply elem_of_files_changed_for in Hc as [Hinv Hc].
    rewrite Hrel in Hc. apply elem_of_files_of in Hc as (r & Hr & Hc).
    by exists r, c.
  - intros (Hp & Hentry & r & c & Hr & Hc & Hinv).
    assert (Hfile : c ∈ files_changed_for STAGE_NAME target_path try_read p
                          STAGE_NAME changes_in_branch).
    { apply elem_of_files_changed_for. split; [done |].
      rewrite Hrel. apply elem_of_files_of. by exists r. }
    eexists (ProjectExecution.mk p _). split; [| done].
    apply elem_of_build_project_executions. exists p. split; [done |].
    apply to_project_execution_Some. split_and!; [done | | done].
    intros Hempty. rewrite Hempty in Hfile.
    by apply not_elem_of_empty in Hfile.
Qed.

Lemma Sample_deployed_invalidated :
  is_invalidated Sample.deployed "deploy" "svcA/main.go" = true.
Proof. reflexivity. Qed.

Lemma deploy_schedule_iff_witness :
  ∃ executions : gset ProjectExecution.t,
    find_build_set "deploy" Sample.target_path Sample.outputs_at_r2
      {[Sample.deployed]} [Sample.r2; Sample.r1] [Stage.mk "deploy"] false
      None None !! Stage.mk "deploy" = Some executions
    ∧ ∃ e, e ∈ executions ∧ ProjectExecution.project e = Sample.deployed.
Proof.
  destruct (deploy_schedule_iff "deploy" Sample.target_path
              Sample.outputs_at_r2 {[Sample.deployed]}
              [Sample.r2; Sample.r1] [Stage.mk "deploy"] None None
              (Stage.mk "deploy"))
    as (executions & Hlookup & Hiff).
  - reflexivity.
  - left.
  - reflexivity.
  - reflexivity.
  - exists executions. split; [exact Hlookup |].
    apply Hiff. split_and!.
    + by apply elem_of_singleton.
    + unfold Stages.for_stage, Sample.deployed. cbn [Project.stages].
      rewrite lookup_singleton_eq. by eexists.
    + exists Sample.r2, "svcA/main.go". split_and!.
      * left.
      * unfold Sample.r2. cbn [Revision.files_touched].
        by apply elem_of_singleton.
      * apply Sample_deployed_invalidated.
Defined.

(** X12: with [build_all] set or an explicit project filter given, the build
    set depends neither on the revision history nor on the recorded outputs,
    and with an explicit filter it does not depend on [build_all] either. *)
Theorem forced_ignores_history_and_outputs (STAGE_NAME STAGE_NAME' : string)
    (target_path target_path' : Project.t → string)
    (try_read try_read' : string → string → option Output.t)
    (all_projects : gset Project.t)
    (changes_in_branch changes_in_branch' : list Revision.t)
    (stages : list Stage.t) (build_all : bool)
    (selected_stage selected_projects : option string) :
  (build_all || truthy selected_projects = true →
   find_build_set STAGE_NAME target_path try_read all_projects
     changes_in_branch stages build_all selected_stage selected_projects
   = find_build_set STAGE_NAME' target_path' try_read' all_projects
       changes_in_branch' stages build_all selected_stage selected_projects)
  ∧ (truthy selected_projects = true →
     find_build_set STAGE_NAME target_path try_read all_projects
       changes_in_branch stages true selected_stage selected_projects
     = find_build_set STAGE_NAME' target_path' try_read' all_projects
         changes_in_branch' stages false selected_stage selected_projects).
Proof.
  split.
  - intros Hmode. apply map_eq. intros stage.
    rewrite !find_build_set_lookup. case_decide; [| done].
    unfold stage_executions. by rewrite Hmode.
  - intros Hsel. apply map_eq. intros stage.
    rewrite !find_build_set_lookup. case_decide; [| done].
    unfold stage_executions. by rewrite Hsel.
Qed.

Lemma forced_ignores_history_and_outputs_witness :
  find_build_set "deploy" Sample.target_path Sample.no_outputs {[Sample.A]}
    [] [Sample.BUILD] true None (Some "A")
  = find_build_set "deploy" Sample.target_path Sample.outputs_at_r2
      {[Sample.A]} [Sample.r2; Sample.r1] [Sample.BUILD] true None (Some "A")
  ∧ find_build_set "deploy" Sample.target_path Sample.no_outputs {[Sample.A]}
      [] [Sample.BUILD] true None (Some "A")
    = find_build_set "deploy" Sample.target_path Sample.outputs_at_r2
        {[Sample.A]} [Sample.r2; Sample.r1] [Sample.BUILD] false None
        (Some "A").
Proof.
  pose proof (forced_ignores_history_and_outputs "deploy" "deploy"
                Sample.target_path Sample.target_path Sample.no_outputs
                Sample.outputs_at_r2 {[Sample.A]} [] [Sample.r2; Sample.r1]
                [Sample.BUILD] true None (Some "A")) as [H1 H2].
  split; [apply H1 | apply H2]; reflexivity.
Defined.

(** X13: the build set depends on which stages are listed, not on their
    order or on repetitions in the list; the narrowing of the projects by the
    explicit filter, made anew at each turn of the loop, does not make one
    stage depend on the stages before it. *)
Theorem stages_as_a_set (STAGE_NAME : string)
    (target_path : Project.t → string)
    (try_read : string → string → option Output.t)
    (all_projects : gset Project.t) (changes_in_branch : list Revision.t)
    (stages stages' : list Stage.t) (build_all : bool)
    (selected_stage selected_projects : option string) :
  (∀ stage, stage ∈ stages ↔ stage ∈ stages') →
  find_build_set STAGE_NAME target_path try_read all_projects
    changes_in_branch stages build_all selected_stage selected_projects
  = find_build_set STAGE_NAME target_path try_read all_projects
      changes_in_branch stages' build_all selected_stage selected_projects.
Proof.
  intros Hsame. apply map_eq. intros stage. rewrite !find_build_set_lookup.
  destruct (decide (stage ∈ stages ∧ skipped selected_stage stage = false))
    as [[Hin Hskip]|Hnot].
  - rewrite decide_True; [done |]. split; [by apply Hsame | done].
  - rewrite decide_False; [done |]. intros [Hin Hskip]. apply Hnot.
    split; [by apply Hsame | done].
Qed.

Lemma stages_as_a_set_witness :
  find_build_set "deploy" Sample.target_path Sample.no_outputs
    {[Sample.A; Sample.B]} [Sample.r1]
    [Sample.BUILD; Stage.mk "deploy"; Sample.BUILD] false None (Some "B")
  = find_build_set "deploy" Sample.target_path Sample.no_outputs
      {[Sample.A; Sample.B]} [Sample.r1]
      [Stage.mk "deploy"; Sample.BUILD] false None (Some "B").
Proof.
  apply stages_as_a_set. intros stage.
  rewrite !elem_of_cons. tauto.
Defined.

(** X14: a project whose root path is the empty string, or that declares the
    empty string as a dependency of the stage, is invalidated by every
    changed path. *)
Theorem empty_prefix_matches_all (project : Project.t) (stage path : string) :
  Project.root_path project = ""
  ∨ "" ∈ declared_dependencies project stage →
  is_invalidated project stage path = true.
Proof.
  intros Hempty. apply is_invalidated_spec.
  destruct Hempty as [Hroot|Hdep].
  - left. rewrite Hroot. by exists path.
  - right. exists "". split; [done | by exists path].
Qed.

Lemma empty_prefix_matches_all_witness :
  is_invalidated Sample.whole_repo "build" "docs/README.md" = true.
Proof.
  apply empty_prefix_matches_all. left. reflexivity.
Defined.

Lemma append_assoc (s1 s2 s3 : string) :
  (s1 +:+ s2) +:+ s3 = s1 +:+ (s2 +:+ s3).
Proof.
  induction s1 as [|a s1 IH]; [done |].
  change (String a ((s1 +:+ s2) +:+ s3) = String a (s1 +:+ (s2 +:+ s3))).
  by rewrite IH.
Qed.

(** X15: invalidation is closed under extension of the path: when a path
    invalidates a project for a stage, so does every path that starts with
    it. *)
Theorem is_invalidated_extension (project : Project.t)
    (stage path rest : string) :
  is_invalidated project stage path = true →
  is_invalidated project stage (path +:+ rest) = true.
Proof.
  rewrite !is_invalidated_spec.
  assert (Hext : ∀ d, prefixed_by path d → prefixed_by (path +:+ rest) d).
  { intros d [t ->]. exists (t +:+ rest). apply append_assoc. }
  intros [Hroot|(d & Hd & Hpre)].
  - left. by apply Hext.
  - right. exists d. split; [done | by apply Hext].
Qed.

Lemma is_invalidated_extension_witness :
  is_invalidated Sample.A "build" ("svcA/" +:+ "main.go") = true.
Proof.
  apply is_invalidated_extension. reflexivity.
Defined.

(** X16: a recorded output is fresh against at most one revision hash: two
    hashes against which it is not invalidated are equal, and equal to the
    revision of its artifact. *)
Theorem output_fresh_for_one_hash (output : option Output.t)
    (hash1 hash2 : string) :
  output_invalidated output hash1 = false →
  output_invalidated output hash2 = false →
  hash1 = hash2
  ∧ ∃ o a, output = Some o ∧ Output.produced_artifact o = Some a
           ∧ Artifact.revision a = hash1.
Proof.
  unfold output_invalidated.
  destruct output as [o|]; [| done].
  destruct (Output.success o); [| done]. simpl.
  destruct (Output.produced_artifact o) as [a|] eqn:Hart; [| done].
  destruct (String.eqb_spec (Artifact.revision a) hash1) as [<-|]; [| done].
  destruct (String.eqb_spec (Artifact.revision a) hash2) as [<-|]; [| done].
  intros _ _. split; [done |]. by exists o, a.
Qed.

Lemma output_fresh_for_one_hash_witness :
  "hash2" = "hash2"
  ∧ ∃ o a, Some (Sample.built_at "hash2") = Some o
           ∧ Output.produced_artifact o = Some a
           ∧ Artifact.revision a = "hash2".
Proof.
  apply (output_fresh_for_one_hash (Some (Sample.built_at "hash2"))
           "hash2" "hash2"); reflexivity.
Defined.

(** X17: an explicit project filter only takes executions away from the
    forced full build: for every stage, the executions it leaves are among
    those of the build with [build_all] and no filter. *)
Theorem filter_within_full_build (STAGE_NAME : string)
    (target_path : Project.t → string)
    (try_read : string → string → option Output.t)
    (all_projects : gset Project.t) (changes_in_branch : list Revision.t)
    (stages : list Stage.t) (build_all : bool)
    (selected_stage selected_projects : option string)
    (stage : Stage.t) (executions : gset ProjectExecution.t) :
  truthy selected_projects = true →
  find_build_set STAGE_NAME target_path try_read all_projects
    changes_in_branch stages build_all selected_stage selected_projects
    !! stage = Some executions →
  ∃ full : gset ProjectExecution.t,
    find_build_set STAGE_NAME target_path try_read all_projects
      changes_in_branch stages true selected_stage None !! stage = Some full
    ∧ executions ⊆ full.
Proof.
  intros Hsel Hlookup.
  apply find_build_set_lookup_Some in Hlookup as (Hin & Hskip & ->).
  eexists. split.
  - rewrite find_build_set_lookup. by apply decide_True.
  - intros e He.
    apply explicit_filter_executions in He as (p & Hp & _ & Hpart & ->);
      [| done].
    apply elem_of_stage_executions_forced; [done |]. by exists p.
Qed.

Lemma filter_within_full_build_witness :
  ∃ full : gset ProjectExecution.t,
    find_build_set "deploy" Sample.target_path Sample.no_outputs
      {[Sample.A; Sample.B]} [Sample.r1] [Sample.BUILD] true None None
      !! Sample.BUILD = Some full
    ∧ stage_executions "deploy" Sample.target_path Sample.no_outputs
        {[Sample.A; Sample.B]} [Sample.r1] false (Some "B") Sample.BUILD
      ⊆ full.
Proof.
  apply (filter_within_full_build "deploy" Sample.target_path
           Sample.no_outputs {[Sample.A; Sample.B]} [Sample.r1]
           [Sample.BUILD] false None (Some "B") Sample.BUILD).
  - reflexivity.
  - rewrite find_build_set_lookup. apply decide_True.
    split; [left | reflexivity].
Defined.

Lemma NoDup_fmap_inj_on {A B} (f : A → B) (l : list A) (x y : A) :
  NoDup (f <$> l) → x ∈ l → y ∈ l → f x = f y → x = y.
Proof.
  induction l as [|a l IH]; intros Hnodup Hx Hy Hf.
  - by apply elem_of_nil in Hx.
  - rewrite fmap_cons in Hnodup. apply NoDup_cons in Hnodup as [Ha Hnodup].
    apply elem_of_cons in Hx as [->|Hx]; apply elem_of_cons in Hy as [->|Hy].
    + done.
    + exfalso. apply Ha. rewrite Hf. apply list_elem_of_fmap. by exists y.
    + exfalso. apply Ha. rewrite <- Hf. apply list_elem_of_fmap. by exists x.
    + by apply IH.
Qed.

Lemma sorted_perm_unique (history history' : list Revision.t) :
  history ≡ₚ history' →
  NoDup (Revision.ord <$> history) →
  sorted history = sorted history'.
Proof.
  intros Hperm Hnodup.
  apply (StronglySorted_unique_strong ord_le).
  - intros x1 x2 Hx1 Hx2 H12 H21.
    rewrite sorted_perm in Hx1. rewrite sorted_perm, <- Hperm in Hx2.
    apply (NoDup_fmap_inj_on Revision.ord history); [done | done | done |].
    unfold ord_le in *. lia.
  - apply sorted_sorted.
  - apply sorted_sorted.
  - by rewrite !sorted_perm.
Qed.

(** X18: in a history without repeated ordinals the order in which the
    revisions are listed plays no part: the relevant changes and the execution
    of a project are the same for every listing of the same revisions. *)
Theorem history_order_irrelevant (STAGE_NAME : string)
    (target_path : Project.t → string)
    (try_read : string → string → option Output.t)
    (project : Project.t) (stage : string)
    (history history' : list Revision.t) :
  history ≡ₚ history' →
  NoDup (Revision.ord <$> history) →
  _to_relevant_changes STAGE_NAME target_path try_read project stage history
  = _to_relevant_changes STAGE_NAME target_path try_read project stage
      history'
  ∧ _to_project_execution STAGE_NAME target_path try_read project stage
      history
    = _to_project_execution STAGE_NAME target_path try_read project stage
        history'.
Proof.
  intros Hperm Hnodup.
  assert (H : _to_relevant_changes STAGE_NAME target_path try_read project
                stage history
              = _to_relevant_changes STAGE_NAME target_path try_read project
                  stage history').
  { unfold _to_relevant_changes.
    by rewrite (sorted_perm_unique history history'). }
  split; [done |]. unfold _to_project_execution. by rewrite H.
Qed.

Lemma history_order_irrelevant_witness :
  _to_relevant_changes "deploy" Sample.target_path Sample.outputs_at_r2
    Sample.A "build" [Sample.r1; Sample.r3; Sample.r2]
  = _to_relevant_changes "deploy" Sample.target_path Sample.outputs_at_r2
      Sample.A "build" [Sample.r3; Sample.r2; Sample.r1]
  ∧ _to_project_execution "deploy" Sample.target_path Sample.outputs_at_r2
      Sample.A "build" [Sample.r1; Sample.r3; Sample.r2]
    = _to_project_execution "deploy" Sample.target_path Sample.outputs_at_r2
        Sample.A "build" [Sample.r3; Sample.r2; Sample.r1].
Proof.
  apply history_order_irrelevant.
  - apply Permutation_cons_append.
  - cbn. repeat constructor; rewrite ?elem_of_cons, ?elem_of_nil;
      intros H; repeat destruct H as [H|H]; try discriminate H; done.
Defined.

(** ** Upgrades of project files *)

Section upgrade_properties.
Variable dict : Type.
Variable get : dict → string → option string.
Variable setitem : dict → string → string → dict.
Variable DeepDiff : dict → dict → bool.

Lemma get_entry_upgrader_index_None (current_version : string)
    (upgraders : list (versioning.Upgrader dict)) :
  versioning.get_entry_upgrader_index dict current_version upgraders = None
  ↔ ∀ u, u ∈ upgraders → versioning.target_version dict u ≠ current_version.
Proof.
  unfold versioning.get_entry_upgrader_index.
  rewrite fmap_None, list_find_None, Forall_forall. done.
Qed.

Lemma get_entry_upgrader_index_Some (current_version : string)
    (upgraders : list (versioning.Upgrader dict)) (i : nat) :
  versioning.get_entry_upgrader_index dict current_version upgraders = Some i
  ↔ ∃ u, upgraders !! i = Some u
         ∧ versioning.target_version dict u = current_version
         ∧ ∀ j u', upgraders !! j = Some u' → (j < i)%nat →
                   versioning.target_version dict u' ≠ current_version.
Proof.
  unfold versioning.get_entry_upgrader_index. rewrite fmap_Some. split.
  - intros ([j u] & Hfind & ->). apply list_find_Some in Hfind.
    exists u. simpl. done.
  - intros (u & Hu & Hv & Hfirst). exists (i, u). split; [| done].
    apply list_find_Some. done.
Qed.

(** No upgrader from the entry on changes the project: the loop returns it
    as it is, without a version stamp. *)
Lemma upgrade_loop_unchanged (to_upgrade : dict)
    (upgraders : list (versioning.Upgrader dict)) :
  DeepDiff to_upgrade to_upgrade = false →
  (∀ u, u ∈ upgraders → versioning.upgrade dict u to_upgrade = to_upgrade) →
  foldl (versioning.upgrade_step dict setitem DeepDiff to_upgrade) to_upgrade
        upgraders
  = to_upgrade.
Proof.
  intros Hdiff. induction upgraders as [|u upgraders IH]; intros Hid.
  - done.
  - cbn [foldl]. unfold versioning.upgrade_step at 2.
    rewrite (Hid u) by left. rewrite Hdiff.
    apply IH. intros u' Hu'. apply Hid. by right.
Qed.
End upgrade_properties.

(** X19: [get_entry_upgrader_index] gives the position of the first upgrader
    whose target version is the current version, and [None] exactly when no
    upgrader has that target. *)
Theorem get_entry_upgrader_index_first (dict : Type)
    (current_version : string)
    (upgraders : list (versioning.Upgrader dict)) :
  (versioning.get_entry_upgrader_index dict current_version upgraders = None
   ↔ ∀ u, u ∈ upgraders → versioning.target_version dict u ≠ current_version)
  ∧ ∀ i,
      versioning.get_entry_upgrader_index dict current_version upgraders
      = Some i
      ↔ ∃ u, upgraders !! i = Some u
             ∧ versioning.target_version dict u = current_version
             ∧ ∀ j u', upgraders !! j = Some u' → (j < i)%nat →
                       versioning.target_version dict u' ≠ current_version.
Proof.
  split.
  - apply get_entry_upgrader_index_None.
  - intros i. apply get_entry_upgrader_index_Some.
Qed.

Lemma get_entry_upgrader_index_first_witness :
  versioning.get_entry_upgrader_index _ "1.0.9"
    (versioning.UPGRADERS _ SampleConfig.rename SampleConfig.rename)
  = Some 1%nat.
Proof.
  apply (proj2 (get_entry_upgrader_index_first _ "1.0.9"
                  (versioning.UPGRADERS _ SampleConfig.rename
                     SampleConfig.rename)) 1%nat).
  exists (versioning.mkUpgrader _ "1.0.9" SampleConfig.rename).
  split_and!; [reflexivity | reflexivity |].
  intros j u' Hu' Hj. destruct j as [|j]; [| lia].
  simpl in Hu'. injection Hu' as <-. discriminate.
Defined.

(** X20: a project whose version (the version field, or 1.0.8 without one) is
    the target of no upgrader is returned as it is, whatever the upgraders
    would do to it. *)
Theorem upgrade_unknown_version (dict : Type)
    (get : dict → string → option string)
    (setitem : dict → string → string → dict)
    (DeepDiff : dict → dict → bool)
    (to_upgrade : dict) (upgraders : list (versioning.Upgrader dict)) :
  (∀ u, u ∈ upgraders →
        versioning.target_version dict u
        ≠ versioning.__get_version dict get to_upgrade) →
  versioning.upgrade_to_latest dict get setitem DeepDiff to_upgrade upgraders
  = to_upgrade.
Proof.
  intros Hnone. unfold versioning.upgrade_to_latest.
  apply get_entry_upgrader_index_None in Hnone. by rewrite Hnone.
Qed.

Lemma upgrade_unknown_version_witness :
  versioning.upgrade_to_latest _ SampleConfig.get SampleConfig.setitem
    SampleConfig.DeepDiff SampleConfig.unknown_version
    (versioning.UPGRADERS _ SampleConfig.rename SampleConfig.rename)
  = SampleConfig.unknown_version.
Proof.
  apply upgrade_unknown_version.
  intros u Hu. unfold versioning.UPGRADERS in Hu.
  rewrite !elem_of_cons, elem_of_nil in Hu.
  destruct Hu as [->|[->|[->|[->|[]]]]]; discriminate.
Defined.

(** X21: with the upgraders of the module, a project at version 1.0.11 is
    returned as it is, provided [DeepDiff] finds no difference between the
    project and itself. *)
Theorem upgrade_latest_version (dict : Type)
    (get : dict → string → option string)
    (setitem : dict → string → string → dict)
    (DeepDiff : dict → dict → bool)
    (upgrade9 upgrade10 : dict → dict) (to_upgrade : dict) :
  versioning.__get_version dict get to_upgrade = "1.0.11" →
  DeepDiff to_upgrade to_upgrade = false →
  versioning.upgrade_to_latest dict get setitem DeepDiff to_upgrade
    (versioning.UPGRADERS dict upgrade9 upgrade10)
  = to_upgrade.
Proof.
  intros Hversion Hdiff. unfold versioning.upgrade_to_latest.
  rewrite Hversion.
  assert (Hindex : versioning.get_entry_upgrader_index dict "1.0.11"
                     (versioning.UPGRADERS dict upgrade9 upgrade10)
                   = Some 3%nat).
  { apply get_entry_upgrader_index_Some. exists (versioning.Upgrader11 dict).
    split_and!; [done | done |].
    intros j u' Hu' Hj.
    destruct j as [|[|[|j]]]; [| | | lia];
      simpl in Hu'; injection Hu' as <-; discriminate. }
  rewrite Hindex. simpl.
  unfold versioning.upgrade_step. simpl. by rewrite Hdiff.
Qed.

Lemma upgrade_latest_version_witness :
  versioning.upgrade_to_latest _ SampleConfig.get SampleConfig.setitem
    SampleConfig.DeepDiff SampleConfig.latest_version
    (versioning.UPGRADERS _ SampleConfig.rename SampleConfig.rename)
  = SampleConfig.latest_version.
Proof.
  apply upgrade_latest_version; reflexivity.
Defined.

(** ** Clusters *)

Lemma from_config_Returns (config : gmap string string)
    (cluster : ClusterConfig.t) :
  ClusterConfig.from_config config = Returns cluster
  ↔ config !! "name" = Some (ClusterConfig.name cluster)
    ∧ config !! "clusterEnv" = Some (ClusterConfig.cluster_env cluster)
    ∧ config !! "context" = Some (ClusterConfig.context cluster)
    ∧ ClusterConfig.project_id cluster = config !! "clusterId"
    ∧ ClusterConfig.cluster_id cluster = config !! "clusterId".
Proof.
  unfold ClusterConfig.from_config, getitem, outcome_bind.
  destruct (config !! "name") as [n|]; [| by split; [| intros [? _]]].
  destruct (config !! "clusterEnv") as [env|];
    [| by split; [| intros (_ & ? & _)]].
  destruct (config !! "context") as [ctx|];
    [| by split; [| intros (_ & _ & ? & _)]].
  split.
  - by intros [= <-].
  - destruct cluster as [n' p' c' env' ctx']. simpl.
    by intros ([= ->] & [= ->] & [= ->] & -> & ->).
Qed.

(** X22: [ClusterConfig.from_config] raises exactly when the name, the
    cluster environment or the context is missing.  Otherwise it returns the
    cluster with these three entries, and with both its project identifier
    and its cluster identifier read from the entry [clusterId]; an entry
    [projectId] of the configuration is not read. *)
Theorem from_config_reads_cluster_id (config : gmap string string) :
  ((∃ e, ClusterConfig.from_config config = Raises e)
   ↔ config !! "name" = None ∨ config !! "clusterEnv" = None
     ∨ config !! "context" = None)
  ∧ (∀ cluster, ClusterConfig.from_config config = Returns cluster →
       config !! "name" = Some (ClusterConfig.name cluster)
       ∧ config !! "clusterEnv" = Some (ClusterConfig.cluster_env cluster)
       ∧ config !! "context" = Some (ClusterConfig.context cluster)
       ∧ ClusterConfig.project_id cluster = config !! "clusterId"
       ∧ ClusterConfig.cluster_id cluster = config !! "clusterId")
  ∧ (∀ v, ClusterConfig.from_config (<["projectId" := v]> config)
          = ClusterConfig.from_config config).
Proof.
  split_and!.
  - unfold ClusterConfig.from_config, getitem, outcome_bind.
    destruct (config !! "name") as [n|];
      [| split; [intros _; by left | intros _; by eexists]].
    destruct (config !! "clusterEnv") as [env|];
      [| split; [intros _; right; by left | intros _; by eexists]].
    destruct (config !! "context") as [ctx|];
      [| split; [intros _; right; by right | intros _; by eexists]].
    split; [by intros [e He] | intros [?|[?|?]]; done].
  - intros cluster. apply from_config_Returns.
  - intros v. unfold ClusterConfig.from_config, getitem.
    by rewrite !lookup_insert_ne.
Qed.

Lemma from_config_reads_cluster_id_witness :
  SampleConfig.acceptance !! "name"
  = Some (ClusterConfig.name SampleConfig.acceptance_cluster)
  ∧ SampleConfig.acceptance !! "clusterEnv"
    = Some (ClusterConfig.cluster_env SampleConfig.acceptance_cluster)
  ∧ SampleConfig.acceptance !! "context"
    = Some (ClusterConfig.context SampleConfig.acceptance_cluster)
  ∧ ClusterConfig.project_id SampleConfig.acceptance_cluster
    = SampleConfig.acceptance !! "clusterId"
  ∧ ClusterConfig.cluster_id SampleConfig.acceptance_cluster
    = SampleConfig.acceptance !! "clusterId".
Proof.
  apply (proj1 (proj2 (from_config_reads_cluster_id SampleConfig.acceptance))).
  vm_compute. reflexivity.
Defined.

(** X23: for a cluster read by [from_config], the metadata of a namespace
    always carry its name; they carry annotations, and labels, exactly when
    the configuration has a non-empty [clusterId], and then the project
    annotation is that identifier twice, joined by a colon, and the project
    label is that identifier. *)
Theorem namespace_metadata_of_config (config : gmap string string)
    (cluster : ClusterConfig.t) (namespace : string) :
  ClusterConfig.from_config config = Returns cluster →
  get_namespace_metadata namespace cluster !! "name" = Some (Str namespace)
  ∧ (is_Some (get_namespace_metadata namespace cluster !! "annotations")
     ↔ ∃ id, config !! "clusterId" = Some id ∧ id ≠ "")
  ∧ (is_Some (get_namespace_metadata namespace cluster !! "labels")
     ↔ ∃ id, config !! "clusterId" = Some id ∧ id ≠ "")
  ∧ ∀ id, config !! "clusterId" = Some id → id ≠ "" →
      get_namespace_metadata namespace cluster !! "annotations"
      = Some (Dict {["field.cattle.io/projectId" := id +:+ ":" +:+ id;
                     "lifecycle.cattle.io/create.namespace-auth" := "true"]})
      ∧ get_namespace_metadata namespace cluster !! "labels"
        = Some (Dict {["field.cattle.io/projectId" := id;
                       "kubernetes.io/metadata.name" := namespace]}).
Proof.
  intros Hconfig.
  apply from_config_Returns in Hconfig as (_ & _ & _ & Hpid & Hcid).
  unfold get_namespace_metadata. rewrite Hpid, Hcid.
  destruct (config !! "clusterId") as [id|].
  - unfold truthy. destruct (String.eqb_spec id "") as [->|Hid]; simpl.
    + split_and!.
      * by rewrite lookup_singleton_eq.
      * rewrite lookup_singleton_ne by done.
        split; [by intros [? ?] | intros (id & [= <-] & ?); done].
      * rewrite lookup_singleton_ne by done.
        split; [by intros [? ?] | intros (id & [= <-] & ?); done].
      * intros id [= <-] ?. done.
    + split_and!.
      * rewrite !lookup_insert_ne by done. by rewrite lookup_singleton_eq.
      * rewrite lookup_insert_ne by done. rewrite lookup_insert_eq.
        split; [intros _; by exists id | by eexists].
      * rewrite lookup_insert_eq.
        split; [intros _; by exists id | by eexists].
      * intros id' [= <-] _.
        rewrite lookup_insert_ne by done. by rewrite !lookup_insert_eq.
  - split_and!.
    + by rewrite lookup_singleton_eq.
    + rewrite lookup_singleton_ne by done.
      split; [by intros [? ?] | intros (id & ? & _); done].
    + rewrite lookup_singleton_ne by done.
      split; [by intros [? ?] | intros (id & ? & _); done].
    + intros id ?. done.
Qed.

Lemma namespace_metadata_of_config_witness :
  get_namespace_metadata "pr-1" SampleConfig.acceptance_cluster !! "name"
  = Some (Str "pr-1").
Proof.
  refine (proj1 (namespace_metadata_of_config SampleConfig.acceptance
                   SampleConfig.acceptance_cluster "pr-1" _)).
  vm_compute. reflexivity.
Defined.

Lemma find_by_name_Some (p : ClusterConfig.t → bool)
    (clusters : list ClusterConfig.t) :
  (∃ c, c ∈ clusters ∧ p c = true) →
  ∃ c, List.find p clusters = Some c ∧ c ∈ clusters ∧ p c = true.
Proof.
  intros (c & Hc & Hp).
  destruct (List.find p clusters) as [c'|] eqn:Hfind.
  - exists c'. apply find_some in Hfind as [Hin Hp'].
    split_and!; [done | by apply list_elem_of_In | done].
  - apply list_elem_of_In in Hc.
    pose proof (find_none p clusters Hfind c Hc). congruence.
Qed.

Lemma find_by_name_None (p : ClusterConfig.t → bool)
    (clusters : list ClusterConfig.t) :
  (∀ c, c ∈ clusters → p c = false) → List.find p clusters = None.
Proof.
  intros Hnone. destruct (List.find p clusters) as [c|] eqn:Hfind; [| done].
  apply find_some in Hfind as [Hin Hp]. apply list_elem_of_In in Hin.
  rewrite (Hnone c Hin) in Hp. done.
Qed.

(** X24: once the configurations of all clusters are read,
    [get_cluster_config_for_project] raises [StopIteration] when no cluster
    bears the default name, even if the project names an existing cluster.
    When a cluster bears the default name, the result is one of the clusters:
    one that bears the name given by the project when there is such a
    cluster, and one that bears the default name when the project names no
    cluster or a cluster that is not listed. *)
Theorem cluster_for_project (cluster_override : option string)
    (cluster_configs : list (gmap string string))
    (default_cluster_name : string) (clusters : list ClusterConfig.t) :
  outcome_map ClusterConfig.from_config cluster_configs = Returns clusters →
  ((∀ c, c ∈ clusters → ClusterConfig.name c ≠ default_cluster_name) →
   get_cluster_config_for_project cluster_override cluster_configs
     default_cluster_name
   = Raises (OtherError "StopIteration"))
  ∧ ((∃ c, c ∈ clusters ∧ ClusterConfig.name c = default_cluster_name) →
     ∃ result,
       get_cluster_config_for_project cluster_override cluster_configs
         default_cluster_name = Returns result
       ∧ result ∈ clusters
       ∧ ((∃ c, c ∈ clusters ∧ Some (ClusterConfig.name c) = cluster_override)
          → Some (ClusterConfig.name result) = cluster_override)
       ∧ ((∀ c, c ∈ clusters → Some (ClusterConfig.name c) ≠ cluster_override)
          → ClusterConfig.name result = default_cluster_name)).
Proof.
  intros Hclusters. unfold get_cluster_config_for_project.
  rewrite Hclusters. simpl. split.
  - intros Hnone. rewrite find_by_name_None; [done |].
    intros c Hc. apply String.eqb_neq. by apply Hnone.
  - intros (c & Hc & Hname).
    destruct (find_by_name_Some
                (λ cluster, String.eqb (ClusterConfig.name cluster)
                              default_cluster_name) clusters)
      as (d & -> & Hd & Hdname).
    { exists c. split; [done |]. by apply String.eqb_eq. }
    apply String.eqb_eq in Hdname.
    eexists. split; [reflexivity |].
    destruct (List.find _ clusters) as [o|] eqn:Hfind; simpl.
    + apply find_some in Hfind as [Ho Honame].
      apply list_elem_of_In in Ho. apply bool_decide_eq_true in Honame.
      split_and!; [done | done |].
      intros Hnone. exfalso. by apply (Hnone o).
    + split_and!; [done | | done].
      intros (c' & Hc' & Hc'name). apply list_elem_of_In in Hc'.
      pose proof (find_none _ _ Hfind c' Hc') as Hfalse. simpl in Hfalse.
      apply bool_decide_eq_false in Hfalse. done.
Qed.

Lemma SampleConfig_clusters :
  outcome_map ClusterConfig.from_config
    [SampleConfig.acceptance; SampleConfig.production]
  = Returns [SampleConfig.acceptance_cluster; SampleConfig.production_cluster].
Proof. vm_compute. reflexivity. Qed.

Lemma cluster_for_project_witness :
  get_cluster_config_for_project (Some "acc")
    [SampleConfig.acceptance; SampleConfig.production] "test"
  = Raises (OtherError "StopIteration").
Proof.
  apply (proj1 (cluster_for_project (Some "acc")
                  [SampleConfig.acceptance; SampleConfig.production] "test"
                  _ SampleConfig_clusters)).
  intros c Hc. rewrite !elem_of_cons, elem_of_nil in Hc.
  destruct Hc as [->|[->|[]]]; discriminate.
Defined.
